(** * AI Image Editor: Encoder, Edit Client and controller handlers

    A shallow embedding of [src/App.tsx] (the [fileToData] helper, the
    [App] component's [handleFileChange] and [handleGenerate]) and of the
    Gemini service ([editImageWithPrompt]), followed by the properties the
    specification states about them.

    JavaScript strings are sequences of UTF-16 code units; they are
    modelled as lists of [N] so that [String.prototype.trim], [split] and
    the regular expression [/:(.*?);/] see the very units the engine sees
    (the line terminators U+2028 and U+2029 are single units). *)

From Stdlib Require Import NArith List String Ascii Bool Lia.
Import ListNotations.

Local Open Scope N_scope.
Local Open Scope list_scope.

(* ===================================================================== *)
(** ** JavaScript strings *)
(* ===================================================================== *)

Module Js.

Definition code_unit := N.
Definition js_string := list code_unit.

(** A source literal, unit by unit. *)
Definition lit (s : string) : js_string :=
  map N_of_ascii (list_ascii_of_string s).

Definition comma : code_unit := 44.
Definition colon : code_unit := 58.
Definition semicolon : code_unit := 59.

(** ECMAScript LineTerminator: LF, CR, LS, PS.  The regular expression
    atom [.] (without the [s] flag) matches every unit but these. *)
Definition is_line_terminator (c : code_unit) : bool :=
  (c =? 10) || (c =? 13) || (c =? 8232) || (c =? 8233).

(** ECMAScript WhiteSpace: TAB, VT, FF, ZWNBSP and the Unicode
    space separators (category Zs). *)
Definition is_white_space (c : code_unit) : bool :=
  (c =? 9) || (c =? 11) || (c =? 12) || (c =? 32) || (c =? 160)
  || (c =? 5760) || ((8192 <=? c) && (c <=? 8202))
  || (c =? 8239) || (c =? 8287) || (c =? 12288) || (c =? 65279).

(** What [trim] strips: WhiteSpace and LineTerminator. *)
Definition is_trimmable (c : code_unit) : bool :=
  is_white_space c || is_line_terminator c.

Fixpoint trimStart (s : js_string) : js_string :=
  match s with
  | [] => []
  | c :: rest => if is_trimmable c then trimStart rest else s
  end.

Definition trimEnd (s : js_string) : js_string :=
  rev (trimStart (rev s)).

(** [s.trim()] *)
Definition trim (s : js_string) : js_string := trimEnd (trimStart s).

(** Truthiness of a string: only the empty string is falsy. *)
Definition truthy (s : js_string) : bool :=
  match s with [] => false | _ :: _ => true end.

(** [v || d] where [v] is a string or [undefined]. *)
Definition or_else (v : option js_string) (d : js_string) : js_string :=
  match v with
  | Some s => if truthy s then s else d
  | None => d
  end.

(** [`${v}`]: [undefined] prints as the nine letters of its name. *)
Definition template (v : option js_string) : js_string :=
  match v with
  | Some s => s
  | None => lit "undefined"
  end.

(** [s.split(sep)] for a one-unit separator: every segment, in order;
    never the empty array. *)
Fixpoint split (sep : code_unit) (s : js_string) : list js_string :=
  match s with
  | [] => [[]]
  | c :: rest =>
      if c =? sep then [] :: split sep rest
      else match split sep rest with
           | seg :: segs => (c :: seg) :: segs
           | [] => [[c]]
           end
  end.

(** The tail [(.*?);] of the pattern, tried at the head of [s]: the lazy
    star first tries to stop (the next unit must be [;]) and otherwise
    consumes one unit that [.] accepts.  Returns the captured group. *)
Fixpoint lazy_dots_then_semicolon (s : js_string) : option js_string :=
  match s with
  | [] => None
  | c :: rest =>
      if c =? semicolon then Some []
      else if is_line_terminator c then None
      else option_map (cons c) (lazy_dots_then_semicolon rest)
  end.

(** [s.match(/:(.*?);/)?.[1]]: the engine tries each start index from
    the left; the first index at which the whole pattern matches wins.
    [None] stands for [undefined] (no match). *)
Fixpoint match_mime (s : js_string) : option js_string :=
  match s with
  | [] => None
  | c :: rest =>
      if c =? colon then
        match lazy_dots_then_semicolon rest with
        | Some captured => Some captured
        | None => match_mime rest
        end
      else match_mime rest
  end.

(** No unit of [s] is a comma. *)
Definition no_comma (s : js_string) : bool :=
  forallb (fun c => negb (c =? comma)) s.

End Js.

Import Js.

(* ===================================================================== *)
(** ** Thrown values, side effects and promises *)
(* ===================================================================== *)

(** The values this program throws or sees thrown:
    - [Error message] is [new Error(message)];
    - [ProviderError raw] is whatever [ai.models.generateContent] rejects
      with, [raw] being the provider's own text;
    - [ReadFailure detail] is the event a [FileReader] hands to
      [onerror]; it has no [message] property. *)
Inductive thrown : Type :=
| Error (message : js_string)
| ProviderError (raw : js_string)
| ReadFailure (detail : js_string).

(** [err.message] on a caught value. *)
Definition message_of (err : thrown) : option js_string :=
  match err with
  | Error message => Some message
  | ProviderError raw => Some raw
  | ReadFailure _ => None
  end.

Inductive settled (A : Type) : Type :=
| Resolved (value : A)
| Rejected (reason : thrown).
Arguments Resolved {A} value.
Arguments Rejected {A} reason.

(* --------------------------------------------------------------------- *)
(** *** Provider types (from the [@google/genai] declarations) *)
(* --------------------------------------------------------------------- *)

(** Every field is optional, as the optional chaining of the source
    expects. *)
Record Blob : Type := mkBlob
  { blob_data : option js_string;
    blob_mimeType : option js_string }.

Record Part : Type := mkPart
  { inlineData : option Blob;
    text : option js_string }.

Record Content : Type := mkContent
  { parts : option (list Part) }.

Record Candidate : Type := mkCandidate
  { content : option Content }.

Record GenerateContentResponse : Type := mkResponse
  { candidates : option (list Candidate) }.

Inductive Modality : Type := IMAGE | TEXT | AUDIO.

Record GenerateContentParameters : Type := mkRequest
  { model : js_string;
    contents_parts : list Part;
    responseModalities : list Modality }.

(* --------------------------------------------------------------------- *)
(** *** Observable side effects and asynchronous computations *)
(* --------------------------------------------------------------------- *)

Inductive console_arg : Type :=
| ArgString (s : js_string)
| ArgThrown (err : thrown).

Inductive effect : Type :=
| NetworkCall (request : GenerateContentParameters)
| ConsoleError (args : list console_arg).

(** An [async] computation run to completion: how its promise settled and
    the effects it performed, oldest first.  Effects performed before a
    [throw] stay performed. *)
Definition Async (A : Type) : Type := (settled A * list effect)%type.

Definition ret {A : Type} (a : A) : Async A := (Resolved a, []).

Definition throw {A : Type} (err : thrown) : Async A := (Rejected err, []).

Definition perform (e : effect) : Async unit := (Resolved tt, [e]).

Definition bind {A B : Type} (c : Async A) (k : A -> Async B) : Async B :=
  match c with
  | (Resolved a, done) => let (r, more) := k a in (r, done ++ more)
  | (Rejected err, done) => (Rejected err, done)
  end.

(** [try { body } catch (error) { handler }] *)
Definition try_catch {A : Type} (body : Async A) (handler : thrown -> Async A)
  : Async A :=
  match body with
  | (Resolved a, done) => (Resolved a, done)
  | (Rejected err, done) => let (r, more) := handler err in (r, done ++ more)
  end.

Declare Scope async_scope.
Delimit Scope async_scope with async.
Notation "x <- c ;; k" := (bind c (fun x => k))
  (at level 100, c at next level, right associativity) : async_scope.
Notation "c ;; k" := (bind c (fun _ => k))
  (at level 100, right associativity) : async_scope.
Local Open Scope async_scope.

Definition outcome {A : Type} (c : Async A) : settled A := fst c.
Definition effects {A : Type} (c : Async A) : list effect := snd c.

(** The network calls among the effects of a run, oldest first. *)
Definition network_calls (fx : list effect)
  : list GenerateContentParameters :=
  flat_map (fun e => match e with
                     | NetworkCall request => [request]
                     | ConsoleError _ => []
                     end) fx.

(* ===================================================================== *)
(** ** The Encoder: [fileToData] *)
(* ===================================================================== *)

(** How a [FileReader.readAsDataURL] ends: [onload] with [reader.result],
    or [onerror] with an event. *)
Inductive read_outcome : Type :=
| Loaded (result : js_string)
| Failed (event : thrown).

(** [base64] is typed [string] but is [undefined] at run time when the
    encoded string holds no comma. *)
Record FileData : Type := mkFileData
  { base64 : option js_string;
    mimeType : js_string;
    dataUrl : js_string }.

Definition default_mime : js_string := lit "application/octet-stream".

(** The body of [reader.onload]. *)
Definition onload (result : js_string) : FileData :=
  let segments := split comma result in
  let header := hd [] segments in
  let data := nth_error segments 1 in
  let mimeType := or_else (match_mime header) default_mime in
  {| base64 := data; mimeType := mimeType; dataUrl := result |}.

(* ===================================================================== *)
(** ** The Edit Client: [editImageWithPrompt] *)
(* ===================================================================== *)

Definition no_image_message : js_string :=
  lit "No image data was found in the API response.".

Definition generic_failure_message : js_string :=
  lit "Failed to generate the image due to an API error. Please check the console and try again.".

Definition api_error_label : js_string := lit "Error calling Gemini API:".

(** The argument of [ai.models.generateContent]. *)
Definition edit_request (base64ImageData : option js_string)
    (mimeType prompt : js_string) : GenerateContentParameters :=
  {| model := lit "gemini-2.5-flash-image";
     contents_parts :=
       [ {| inlineData := Some {| blob_data := base64ImageData;
                                  blob_mimeType := Some mimeType |};
            text := None |};
         {| inlineData := None; text := Some prompt |} ];
     responseModalities := [IMAGE] |}.

(** [response.candidates?.[0]?.content?.parts || []] *)
Definition first_candidate_parts (response : GenerateContentResponse)
  : list Part :=
  match candidates response with
  | Some (first :: _) =>
      match content first with
      | Some c => match parts c with Some ps => ps | None => [] end
      | None => []
      end
  | Some [] | None => []
  end.

(** [`data:${newMimeType};base64,${newBase64Data}`] *)
Definition data_uri_of_blob (b : Blob) : js_string :=
  lit "data:" ++ template (blob_mimeType b) ++ lit ";base64,"
    ++ template (blob_data b).

(** The [for (const part of ...)] loop: [Some uri] when an iteration
    returns, [None] when the loop runs off the end. *)
Fixpoint scan_parts (ps : list Part) : option js_string :=
  match ps with
  | [] => None
  | part :: rest =>
      match inlineData part with
      | Some blob => Some (data_uri_of_blob blob)
      | None => scan_parts rest
      end
  end.

Section Program.

(** The browser's file type and reader, and the provider behind
    [ai.models.generateContent]. *)
Variable File : Type.
Variable readAsDataURL : File -> read_outcome.
Variable generateContent :
  GenerateContentParameters -> thrown + GenerateContentResponse.

Definition fileToData (file : File) : Async FileData :=
  match readAsDataURL file with
  | Loaded result => ret (onload result)
  | Failed event => throw event
  end.

(** [await ai.models.generateContent(request)] *)
Definition call_generateContent (request : GenerateContentParameters)
  : Async GenerateContentResponse :=
  perform (NetworkCall request) ;;
  match generateContent request with
  | inr response => ret response
  | inl err => throw err
  end.

Definition editImageWithPrompt (base64ImageData : option js_string)
    (mimeType prompt : js_string) : Async js_string :=
  try_catch
    (response <- call_generateContent
                   (edit_request base64ImageData mimeType prompt) ;;
     match scan_parts (first_candidate_parts response) with
     | Some uri => ret uri
     | None => throw (Error no_image_message)
     end)
    (fun error =>
       perform (ConsoleError [ArgString api_error_label; ArgThrown error]) ;;
       throw (Error generic_failure_message)).

(* ===================================================================== *)
(** ** The controller: the [App] component's state and handlers *)
(* ===================================================================== *)

(** The six [useState] cells. *)
Record AppState : Type := mkAppState
  { uploadedImageFile : option File;
    uploadedImagePreview : option js_string;
    prompt : js_string;
    generatedImage : option js_string;
    isLoading : bool;
    error : option js_string }.

Definition setUploadedImageFile (v : option File) (s : AppState) : AppState :=
  {| uploadedImageFile := v;
     uploadedImagePreview := uploadedImagePreview s;
     prompt := prompt s;
     generatedImage := generatedImage s;
     isLoading := isLoading s;
     error := error s |}.

Definition setUploadedImagePreview (v : option js_string) (s : AppState)
  : AppState :=
  {| uploadedImageFile := uploadedImageFile s;
     uploadedImagePreview := v;
     prompt := prompt s;
     generatedImage := generatedImage s;
     isLoading := isLoading s;
     error := error s |}.

Definition setGeneratedImage (v : option js_string) (s : AppState) : AppState :=
  {| uploadedImageFile := uploadedImageFile s;
     uploadedImagePreview := uploadedImagePreview s;
     prompt := prompt s;
     generatedImage := v;
     isLoading := isLoading s;
     error := error s |}.

Definition setIsLoading (v : bool) (s : AppState) : AppState :=
  {| uploadedImageFile := uploadedImageFile s;
     uploadedImagePreview := uploadedImagePreview s;
     prompt := prompt s;
     generatedImage := generatedImage s;
     isLoading := v;
     error := error s |}.

Definition setError (v : option js_string) (s : AppState) : AppState :=
  {| uploadedImageFile := uploadedImageFile s;
     uploadedImagePreview := uploadedImagePreview s;
     prompt := prompt s;
     generatedImage := generatedImage s;
     isLoading := isLoading s;
     error := v |}.

(** One run of a handler, from the event to the settling of everything it
    started: the states the component is rendered with, in order, and the
    effects performed.  The setters called before the first [await] are
    applied together (React batches them inside the event handler); each
    setter called afterwards gives a state of its own. *)
Record Run : Type := mkRun
  { renders : list AppState;
    run_effects : list effect }.

(** The state a run leaves the component in. *)
Definition final_state (before : AppState) (r : Run) : AppState :=
  last (renders r) before.

Definition validation_message : js_string :=
  lit "Please upload an image and enter a prompt.".

Definition unknown_error_message : js_string :=
  lit "An unknown error occurred.".

Definition file_read_message : js_string :=
  lit "Could not read the selected file.".

(** [handleFileChange]; [selected] is [event.target.files?.[0]]. *)
Definition handleFileChange (selected : option File) (s : AppState) : Run :=
  match selected with
  | Some file =>
      let s1 := setUploadedImageFile (Some file) s in
      match fileToData file with
      | (Resolved d, fx) =>
          let s2 := setUploadedImagePreview (Some (dataUrl d)) s1 in
          let s3 := setGeneratedImage None s2 in
          let s4 := setError None s3 in
          {| renders := [s1; s2; s3; s4]; run_effects := fx |}
      | (Rejected err, fx) =>
          {| renders := [s1; setError (Some file_read_message) s1];
             run_effects := fx ++ [ConsoleError [ArgThrown err]] |}
      end
  | None => {| renders := []; run_effects := [] |}
  end.

(** The guard [!uploadedImageFile || !prompt.trim()] failed to pass. *)
Definition reject_generate (s : AppState) : Run :=
  {| renders := [setError (Some validation_message) s]; run_effects := [] |}.

(** The body of the [try] block of [handleGenerate], up to the value it
    hands to [setGeneratedImage]. *)
Definition generate_attempt (file : File) (prompt : js_string)
  : Async js_string :=
  d <- fileToData file ;;
  editImageWithPrompt (base64 d) (mimeType d) prompt.

(** [handleGenerate], closed over the [uploadedImageFile] and [prompt] of
    the state it is invoked in. *)
Definition handleGenerate (s : AppState) : Run :=
  match uploadedImageFile s with
  | None => reject_generate s
  | Some file =>
      if negb (truthy (trim (prompt s))) then reject_generate s
      else
        let loading :=
          setGeneratedImage None (setError None (setIsLoading true s)) in
        match generate_attempt file (prompt s) with
        | (Resolved resultDataUrl, fx) =>
            let s2 := setGeneratedImage (Some resultDataUrl) loading in
            {| renders := [loading; s2; setIsLoading false s2];
               run_effects := fx |}
        | (Rejected err, fx) =>
            let s2 :=
              setError (Some (or_else (message_of err) unknown_error_message))
                       loading in
            {| renders := [loading; s2; setIsLoading false s2];
               run_effects := fx ++ [ConsoleError [ArgThrown err]] |}
        end
  end.

End Program.

Arguments uploadedImageFile {File} _.
Arguments uploadedImagePreview {File} _.
Arguments prompt {File} _.
Arguments generatedImage {File} _.
Arguments isLoading {File} _.
Arguments error {File} _.
Arguments mkAppState {File} _ _ _ _ _ _.
Arguments renders {File} _.
Arguments run_effects {File} _.
Arguments final_state {File} _ _.
Arguments handleFileChange {File} _ _ _.
Arguments handleGenerate {File} _ _ _.
Arguments fileToData {File} _ _.
Arguments generate_attempt {File} _ _ _ _.
Arguments setUploadedImageFile {File} _ _.
Arguments setUploadedImagePreview {File} _ _.
Arguments setGeneratedImage {File} _ _.
Arguments setIsLoading {File} _ _.
Arguments setError {File} _ _.

(* ===================================================================== *)
(** ** The specification's vocabulary *)
(* ===================================================================== *)

Module Spec.

(** "Splits the encoded string at the first comma into header and
    payload": the units before the first comma and all the units after
    it; nothing when there is no comma. *)
Fixpoint split_at_first_comma (s : js_string)
  : option (js_string * js_string) :=
  match s with
  | [] => None
  | c :: rest =>
      if c =? comma then Some ([], rest)
      else match split_at_first_comma rest with
           | Some (header, payload) => Some (c :: header, payload)
           | None => None
           end
  end.

(** The units of [s] before the first [stop]; nothing when [stop] does
    not occur. *)
Fixpoint up_to_first (stop : code_unit) (s : js_string) : option js_string :=
  match s with
  | [] => None
  | c :: rest =>
      if c =? stop then Some []
      else option_map (cons c) (up_to_first stop rest)
  end.

(** The units of [s] after the first [start]. *)
Fixpoint after_first (start : code_unit) (s : js_string) : option js_string :=
  match s with
  | [] => None
  | c :: rest => if c =? start then Some rest else after_first start rest
  end.

(** "The substring between [:] and the first [;]" of a header. *)
Definition mime_between (header : js_string) : option js_string :=
  match after_first colon header with
  | Some rest => up_to_first semicolon rest
  | None => None
  end.

(** [data:<mime>;base64,<payload>] *)
Definition data_url (mime payload : js_string) : js_string :=
  lit "data:" ++ mime ++ lit ";base64," ++ payload.

(** A MIME string as it stands in the header of such a URL: not empty,
    and free of the units that delimit the header ([,] and [;]) and of
    line terminators.  Every [type/subtype] built from RFC 2045 tokens
    qualifies. *)
Definition is_mime_unit (c : code_unit) : bool :=
  negb (c =? comma) && negb (c =? semicolon) && negb (is_line_terminator c).

Definition well_formed_mime (m : js_string) : bool :=
  truthy m && forallb is_mime_unit m.

(** A payload: free of commas, as every base64 text is. *)
Definition well_formed_payload (b : js_string) : bool := no_comma b.

(** The units of the base64 alphabet: letters, digits, [+], [/], [=]. *)
Definition is_base64_unit (c : code_unit) : bool :=
  ((65 <=? c) && (c <=? 90)) || ((97 <=? c) && (c <=? 122))
  || ((48 <=? c) && (c <=? 57)) || (c =? 43) || (c =? 47) || (c =? 61).

(** The string [r] is [data:<m>;base64,<b>] for a well-formed [m], [b]. *)
Definition well_formed_data_url (r m b : js_string) : Prop :=
  r = data_url m b /\ well_formed_mime m = true
  /\ well_formed_payload b = true.

(** The units of [s] up to the next comma, or all of them when there is
    none. *)
Fixpoint until_comma (s : js_string) : js_string :=
  match s with
  | [] => []
  | c :: rest => if c =? comma then [] else c :: until_comma rest
  end.

(** A string is blank when [trim] leaves nothing of it: it is empty or
    holds white space and line terminators only. *)
Definition whitespace_only (s : js_string) : bool :=
  forallb is_trimmable s.

(** A part "carries inline image data". *)
Definition carries_inline (p : Part) : bool :=
  match inlineData p with Some _ => true | None => false end.


(** What [${v}] contributes to a template literal: the string itself,
    and for [undefined] the word "undefined". *)
Definition interpolated (v : option js_string) : js_string :=
  match v with
  | Some s => s
  | None => [117; 110; 100; 101; 102; 105; 110; 101; 100]
  end.

(** While the component is loading, what it shows of a result or of an
    error stems from the attempt under way, settled as [attempt]: nothing
    at all, or that attempt's own image or message. *)
Definition nothing_stale {File : Type} (attempt : settled js_string)
    (st : AppState File) : Prop :=
  isLoading st = true ->
  (generatedImage st = None
   \/ exists url, attempt = Resolved url /\ generatedImage st = Some url)
  /\ (error st = None
      \/ exists err, attempt = Rejected err
                     /\ error st = Some (or_else (message_of err)
                                                 unknown_error_message)).

(** What the Encoder is said to return when it falls back to the default
    MIME type: "the payload after the first comma as base64 and the full
    encoded string as dataUrl". *)
Definition default_mime_result (r : js_string) (d : FileData) : Prop :=
  mimeType d = default_mime
  /\ base64 d = option_map snd (split_at_first_comma r)
  /\ dataUrl d = r.

End Spec.

(* ===================================================================== *)
(** ** Sample files, provider answers and states *)
(* ===================================================================== *)

Module Fixture.

(** A file is named by what reading it yields; the empty one stands for
    a file that cannot be read. *)
Definition reader (file : js_string) : read_outcome :=
  match file with
  | [] => Failed (ReadFailure (lit "NotReadableError"))
  | _ :: _ => Loaded file
  end.

Definition png_file : js_string := lit "data:image/png;base64,iVBORw0KGgo=".
Definition untyped_file : js_string := lit "data:;base64,AAAA".
Definition bare_file : js_string := lit "data:".
Definition comma_typed_file : js_string := lit "data:a,b;base64,AAAA".
Definition unreadable_file : js_string := [].

Definition text_part : Part :=
  {| inlineData := None; text := Some (lit "no image") |}.

Definition webp_part : Part :=
  {| inlineData := Some {| blob_data := Some (lit "Y");
                           blob_mimeType := Some (lit "image/webp") |};
     text := None |}.

Definition response_of (ps : list Part) : GenerateContentResponse :=
  {| candidates := Some [ {| content := Some {| parts := Some ps |} |} ] |}.

Definition answering (ps : list Part)
  : GenerateContentParameters -> thrown + GenerateContentResponse :=
  fun _ => inr (response_of ps).

Definition failing (raw : js_string)
  : GenerateContentParameters -> thrown + GenerateContentResponse :=
  fun _ => inl (ProviderError raw).

(** After a successful generation for [png_file]. *)
Definition showing_result : AppState js_string :=
  {| uploadedImageFile := Some png_file;
     uploadedImagePreview := Some png_file;
     prompt := lit "make the sky purple";
     generatedImage := Some (lit "data:image/webp;base64,Y");
     isLoading := false;
     error := None |}.

(** The same with the prompt blanked out. *)
Definition blank_prompt : AppState js_string :=
  {| uploadedImageFile := Some png_file;
     uploadedImagePreview := Some png_file;
     prompt := lit "   ";
     generatedImage := Some (lit "data:image/webp;base64,Y");
     isLoading := false;
     error := None |}.

End Fixture.

(* ===================================================================== *)
(** ** The rest of the component: prompt editing, the view, the events *)
(* ===================================================================== *)

(** [setPrompt], called by the text area's [onChange]. *)
Definition setPrompt {File : Type} (v : js_string) (s : AppState File)
  : AppState File :=
  {| uploadedImageFile := uploadedImageFile s;
     uploadedImagePreview := uploadedImagePreview s;
     prompt := v;
     generatedImage := generatedImage s;
     isLoading := isLoading s;
     error := error s |}.

(** The initial values handed to the six [useState] calls. *)
Definition initial_state {File : Type} : AppState File :=
  {| uploadedImageFile := None;
     uploadedImagePreview := None;
     prompt := [];
     generatedImage := None;
     isLoading := false;
     error := None |}.

(** Truthiness of a [string | null] cell: [null] and the empty string are
    falsy. *)
Definition truthy_cell (v : option js_string) : bool :=
  match v with
  | Some s => truthy s
  | None => false
  end.

(** [{cond && <element src={v} />}]: the element with its source when the
    condition holds, nothing otherwise. *)
Definition element_if (cond : bool) (v : option js_string)
  : option js_string :=
  if cond then v else None.

Inductive button_text : Type := RegenerateText | GenerateImageText.

(** The controls area: the text area, the generate button and the
    download link. *)
Record Controls : Type := mkControls
  { prompt_value : js_string;
    button_disabled : bool;
    button_label : button_text;
    download_href : option js_string }.

(** What the JSX returned by [App] shows, conditional by conditional. *)
Record View : Type := mkView
  { original_img : option js_string;
    upload_placeholder : bool;
    spinner : bool;
    generated_img : option js_string;
    result_placeholder : bool;
    controls : option Controls;
    error_alert : option js_string }.

Definition render {File : Type} (s : AppState File) : View :=
  {| original_img :=
       element_if (truthy_cell (uploadedImagePreview s))
                  (uploadedImagePreview s);
     upload_placeholder := negb (truthy_cell (uploadedImagePreview s));
     spinner := isLoading s;
     generated_img :=
       element_if (truthy_cell (generatedImage s) && negb (isLoading s))
                  (generatedImage s);
     result_placeholder :=
       negb (truthy_cell (generatedImage s)) && negb (isLoading s);
     controls :=
       if truthy_cell (uploadedImagePreview s) then
         Some {| prompt_value := prompt s;
                 button_disabled :=
                   isLoading s || negb (truthy (trim (prompt s)));
                 button_label :=
                   if truthy_cell (generatedImage s) then RegenerateText
                   else GenerateImageText;
                 download_href :=
                   element_if (truthy_cell (generatedImage s)
                               && negb (isLoading s))
                              (generatedImage s) |}
       else None;
     error_alert := element_if (truthy_cell (error s)) (error s) |}.

(** The three handlers a user can set off. *)
Inductive handler_call (File : Type) : Type :=
| FileChange (selected : option File)
| PromptChange (value : js_string)
| Generate.
Arguments FileChange {File} selected.
Arguments PromptChange {File} value.
Arguments Generate {File}.

Section Events.

Variable File : Type.
Variable readAsDataURL : File -> read_outcome.
Variable generateContent :
  GenerateContentParameters -> thrown + GenerateContentResponse.

(** One handler run to completion, from the state it is invoked in. *)
Definition run_handler (call : handler_call File) (s : AppState File)
  : Run File :=
  match call with
  | FileChange selected => handleFileChange readAsDataURL selected s
  | PromptChange value =>
      {| renders := [setPrompt value s]; run_effects := [] |}
  | Generate => handleGenerate readAsDataURL generateContent s
  end.

(** The state after a sequence of handler runs, each one settled before
    the next begins. *)
Definition after_calls (calls : list (handler_call File))
    (s : AppState File) : AppState File :=
  fold_left (fun st call => final_state st (run_handler call st)) calls s.

(** What holds of the state between two handler runs. *)
Definition between_runs (s : AppState File) : Prop :=
  isLoading s = false
  /\ (uploadedImagePreview s <> None -> uploadedImageFile s <> None)
  /\ (forall m, error s = Some m -> truthy m = true)
  /\ (forall u, generatedImage s = Some u ->
        exists blob, u = data_uri_of_blob blob).

(** The messages the component itself words. *)
Definition own_messages : list js_string :=
  [validation_message; file_read_message; generic_failure_message;
   unknown_error_message].

End Events.

Arguments run_handler {File} _ _ _ _.
Arguments after_calls {File} _ _ _ _.
Arguments between_runs {File} _.

(** The string [u] is [data:<mimeType>;base64,<data>] for an inline part
    standing in the first candidate of an answer the provider gives to
    an edit request. *)
Definition provider_image
    (generateContent :
       GenerateContentParameters -> thrown + GenerateContentResponse)
    (u : js_string) : Prop :=
  exists (b : option js_string) (m p : js_string)
         (response : GenerateContentResponse)
         (first : Candidate) (others : list Candidate)
         (c : Content) (ps : list Part) (part : Part) (blob : Blob),
    generateContent (edit_request b m p) = inr response
    /\ candidates response = Some (first :: others)
    /\ content first = Some c
    /\ parts c = Some ps
    /\ In part ps
    /\ inlineData part = Some blob
    /\ u = Spec.data_url (Spec.interpolated (blob_mimeType blob))
                         (Spec.interpolated (blob_data blob)).

(** Further samples. *)
Module Sample.

Definition parameterised_file : js_string :=
  lit "data:text/plain;charset=utf-8;base64,QQ==".

Definition reencoded_file : js_string :=
  lit "data:application/octet-stream;base64,b;base64".

(** A file is chosen and read, a prompt is typed. *)
Definition ready : AppState js_string :=
  {| uploadedImageFile := Some Fixture.png_file;
     uploadedImagePreview := Some Fixture.png_file;
     prompt := lit " make it blue ";
     generatedImage := None;
     isLoading := false;
     error := None |}.

(** The file stored cannot be read (any more). *)
Definition ready_unreadable : AppState js_string :=
  {| uploadedImageFile := Some Fixture.unreadable_file;
     uploadedImagePreview := Some Fixture.png_file;
     prompt := lit "make it blue";
     generatedImage := Some (lit "data:image/webp;base64,Y");
     isLoading := false;
     error := None |}.

Definition text_only_candidate : Candidate :=
  {| content := Some {| parts := Some [Fixture.text_part] |} |}.

Definition webp_candidate : Candidate :=
  {| content := Some {| parts := Some [Fixture.webp_part] |} |}.

Definition answering_candidates (cs : list Candidate)
  : GenerateContentParameters -> thrown + GenerateContentResponse :=
  fun _ => inr {| candidates := Some cs |}.

Definition controls_with_result : Controls :=
  {| prompt_value := lit "make the sky purple";
     button_disabled := false;
     button_label := RegenerateText;
     download_href := Some (lit "data:image/webp;base64,Y") |}.

Definition controls_ready : Controls :=
  {| prompt_value := lit "make it blue";
     button_disabled := false;
     button_label := GenerateImageText;
     download_href := None |}.

Definition upload_then_type : list (handler_call js_string) :=
  [FileChange (Some Fixture.png_file); PromptChange (lit "make it blue")].

Definition png_part : Part :=
  {| inlineData := Some {| blob_data := Some (lit "Z");
                           blob_mimeType := Some (lit "image/png") |};
     text := None |}.

Definition png_candidate : Candidate :=
  {| content := Some {| parts := Some [png_part] |} |}.

(** A first candidate with a text part, then a WebP image, then a PNG
    image; and a second candidate with a PNG image only. *)
Definition text_webp_png : list Part :=
  [Fixture.text_part; Fixture.webp_part; png_part].

Definition text_webp_png_candidate : Candidate :=
  {| content := Some {| parts := Some text_webp_png |} |}.

Definition two_candidates : GenerateContentResponse :=
  {| candidates := Some [text_webp_png_candidate; png_candidate] |}.

End Sample.

(* ===================================================================== *)
(** ** Facts about the string operations *)
(* ===================================================================== *)

Lemma split_never_empty (sep : code_unit) (s : js_string) :
  split sep s <> [].
Proof.
  induction s as [| c rest IH]; simpl.
  - discriminate.
  - destruct (c =? sep); [discriminate |].
    destruct (split sep rest); [contradiction | discriminate].
Qed.

Lemma split_at_comma (h p : js_string) :
  no_comma h = true ->
  split comma (h ++ comma :: p) = h :: split comma p.
Proof.
  induction h as [| c h IH]; simpl; intros Hh.
  - reflexivity.
  - apply andb_true_iff in Hh. destruct Hh as [Hc Hh].
    apply negb_true_iff in Hc. rewrite Hc, (IH Hh). reflexivity.
Qed.

Lemma split_without_comma (s : js_string) :
  no_comma s = true -> split comma s = [s].
Proof.
  induction s as [| c s IH]; simpl; intros Hs.
  - reflexivity.
  - apply andb_true_iff in Hs. destruct Hs as [Hc Hs].
    apply negb_true_iff in Hc. rewrite Hc, (IH Hs). reflexivity.
Qed.

Lemma hd_split_until_comma (s : js_string) :
  hd [] (split comma s) = Spec.until_comma s.
Proof.
  induction s as [| c s IH]; simpl.
  - reflexivity.
  - destruct (c =? comma); [reflexivity |].
    destruct (split comma s) eqn:E.
    + exfalso. exact (split_never_empty _ _ E).
    + simpl in *. now rewrite IH.
Qed.

(** The specification's cut at the first comma, read backwards. *)
Lemma split_at_first_comma_inv (s h p : js_string) :
  Spec.split_at_first_comma s = Some (h, p) ->
  s = h ++ comma :: p /\ no_comma h = true.
Proof.
  revert h. induction s as [| c s IH]; simpl; intros h H.
  - discriminate.
  - destruct (c =? comma) eqn:Ec.
    + inversion H; subst. apply N.eqb_eq in Ec. subst. now split.
    + destruct (Spec.split_at_first_comma s) as [[h' p'] |]; [| discriminate].
      inversion H; subst. destruct (IH h' eq_refl) as [-> Hh].
      split; [reflexivity |]. simpl. now rewrite Ec.
Qed.

Lemma split_at_first_comma_app (h p : js_string) :
  no_comma h = true ->
  Spec.split_at_first_comma (h ++ comma :: p) = Some (h, p).
Proof.
  induction h as [| c h IH]; simpl; intros Hh.
  - reflexivity.
  - apply andb_true_iff in Hh. destruct Hh as [Hc Hh].
    apply negb_true_iff in Hc. rewrite Hc, (IH Hh). reflexivity.
Qed.

Lemma split_at_first_comma_none (s : js_string) :
  Spec.split_at_first_comma s = None -> no_comma s = true.
Proof.
  induction s as [| c s IH]; simpl; intros H.
  - reflexivity.
  - destruct (c =? comma); [discriminate |].
    destruct (Spec.split_at_first_comma s) as [[h p] |]; [discriminate |].
    now rewrite IH.
Qed.

(** The code's [split(',')] against the specification's cut: the header
    is the same, the second segment stops at the next comma. *)
Lemma split_vs_first_comma (s : js_string) :
  match Spec.split_at_first_comma s with
  | Some (h, p) =>
      hd [] (split comma s) = h
      /\ nth_error (split comma s) 1 = Some (Spec.until_comma p)
  | None =>
      hd [] (split comma s) = s /\ nth_error (split comma s) 1 = None
  end.
Proof.
  destruct (Spec.split_at_first_comma s) as [[h p] |] eqn:E.
  - destruct (split_at_first_comma_inv _ _ _ E) as [-> Hh].
    rewrite (split_at_comma _ _ Hh). simpl. split; [reflexivity |].
    rewrite <- hd_split_until_comma.
    destruct (split comma p) eqn:Ep; [| reflexivity].
    exfalso. exact (split_never_empty _ _ Ep).
  - rewrite (split_without_comma _ (split_at_first_comma_none _ E)).
    now split.
Qed.

Lemma until_comma_without_comma (s : js_string) :
  no_comma s = true -> Spec.until_comma s = s.
Proof.
  induction s as [| c s IH]; simpl; intros Hs.
  - reflexivity.
  - apply andb_true_iff in Hs. destruct Hs as [Hc Hs].
    apply negb_true_iff in Hc. rewrite Hc. now rewrite IH.
Qed.

(** Base64 text holds no comma. *)
Lemma base64_text_well_formed (b : js_string) :
  forallb Spec.is_base64_unit b = true -> Spec.well_formed_payload b = true.
Proof.
  unfold Spec.well_formed_payload.
  induction b as [| c b IH]; simpl; intros H.
  - reflexivity.
  - apply andb_true_iff in H. destruct H as [Hc Hb].
    rewrite (IH Hb), andb_true_r.
    destruct (c =? comma) eqn:E; [| reflexivity].
    apply N.eqb_eq in E. subst c. discriminate Hc.
Qed.

Lemma no_comma_app (a b : js_string) :
  no_comma (a ++ b) = no_comma a && no_comma b.
Proof. apply forallb_app. Qed.

Lemma mime_units_no_comma (m : js_string) :
  forallb Spec.is_mime_unit m = true -> no_comma m = true.
Proof.
  induction m as [| c m IH]; simpl; intros H.
  - reflexivity.
  - apply andb_true_iff in H. destruct H as [Hc Hm].
    unfold Spec.is_mime_unit in Hc.
    apply andb_true_iff in Hc. destruct Hc as [Hc _].
    apply andb_true_iff in Hc. destruct Hc as [Hc _].
    now rewrite Hc, IH.
Qed.

(** The lazy star stops at the first [;] when nothing before it is a line
    terminator. *)
Lemma lazy_dots_capture (m rest : js_string) :
  forallb Spec.is_mime_unit m = true ->
  lazy_dots_then_semicolon (m ++ semicolon :: rest) = Some m.
Proof.
  induction m as [| c m IH]; simpl; intros H.
  - reflexivity.
  - apply andb_true_iff in H. destruct H as [Hc Hm].
    unfold Spec.is_mime_unit in Hc.
    apply andb_true_iff in Hc. destruct Hc as [Hc Hlt].
    apply andb_true_iff in Hc. destruct Hc as [_ Hsemi].
    apply negb_true_iff in Hsemi, Hlt.
    rewrite Hsemi, Hlt, (IH Hm). reflexivity.
Qed.

Lemma up_to_first_semicolon (m rest : js_string) :
  forallb Spec.is_mime_unit m = true ->
  Spec.up_to_first semicolon (m ++ semicolon :: rest) = Some m.
Proof.
  induction m as [| c m IH]; simpl; intros H.
  - reflexivity.
  - apply andb_true_iff in H. destruct H as [Hc Hm].
    unfold Spec.is_mime_unit in Hc.
    apply andb_true_iff in Hc. destruct Hc as [Hc _].
    apply andb_true_iff in Hc. destruct Hc as [_ Hsemi].
    apply negb_true_iff in Hsemi.
    rewrite Hsemi, (IH Hm). reflexivity.
Qed.

(** A header without a colon, or without a semicolon, has no
    [:...;] segment. *)
Lemma lazy_dots_without_semicolon (s : js_string) :
  forallb (fun c => negb (c =? semicolon)) s = true ->
  lazy_dots_then_semicolon s = None.
Proof.
  induction s as [| c s IH]; simpl; intros H.
  - reflexivity.
  - apply andb_true_iff in H. destruct H as [Hc Hs].
    apply negb_true_iff in Hc. rewrite Hc, (IH Hs).
    now destruct (is_line_terminator c).
Qed.

Lemma match_mime_without_semicolon (s : js_string) :
  forallb (fun c => negb (c =? semicolon)) s = true ->
  match_mime s = None.
Proof.
  induction s as [| c s IH]; simpl; intros H.
  - reflexivity.
  - apply andb_true_iff in H. destruct H as [_ Hs].
    rewrite (lazy_dots_without_semicolon _ Hs), (IH Hs).
    now destruct (c =? colon).
Qed.

Lemma match_mime_without_colon (s : js_string) :
  forallb (fun c => negb (c =? colon)) s = true ->
  match_mime s = None.
Proof.
  induction s as [| c s IH]; simpl; intros H.
  - reflexivity.
  - apply andb_true_iff in H. destruct H as [Hc Hs].
    apply negb_true_iff in Hc. now rewrite Hc, IH.
Qed.

(** [x || 'application/octet-stream'] is never the empty string. *)
Lemma or_else_default_truthy (v : option js_string) :
  or_else v default_mime <> [].
Proof.
  destruct v as [[| c s] |]; simpl; discriminate.
Qed.

(** [trim] against blankness. *)
Lemma trimStart_blank (s : js_string) :
  Spec.whitespace_only s = true -> trimStart s = [].
Proof.
  induction s as [| c s IH]; simpl; intros H.
  - reflexivity.
  - apply andb_true_iff in H. destruct H as [Hc Hs]. now rewrite Hc, IH.
Qed.

Lemma trim_blank (s : js_string) :
  Spec.whitespace_only s = true -> trim s = [].
Proof.
  intros H. unfold trim, trimEnd. now rewrite (trimStart_blank _ H).
Qed.

Lemma trimStart_nil_blank (s : js_string) :
  trimStart s = [] -> Spec.whitespace_only s = true.
Proof.
  induction s as [| c s IH]; simpl; intros H.
  - reflexivity.
  - destruct (is_trimmable c); [now rewrite IH | discriminate].
Qed.

Lemma trimStart_head (s : js_string) :
  match trimStart s with
  | [] => True
  | c :: _ => is_trimmable c = false
  end.
Proof.
  induction s as [| c s IH]; simpl.
  - exact I.
  - destruct (is_trimmable c) eqn:E; [exact IH | exact E].
Qed.

Lemma blank_rev (s : js_string) :
  Spec.whitespace_only (rev s) = Spec.whitespace_only s.
Proof.
  unfold Spec.whitespace_only.
  induction s as [| c s IH]; simpl.
  - reflexivity.
  - rewrite forallb_app, IH. simpl. rewrite andb_true_r. apply andb_comm.
Qed.

Lemma trim_nil_blank (s : js_string) :
  trim s = [] -> Spec.whitespace_only s = true.
Proof.
  unfold trim, trimEnd. intros H.
  apply (f_equal (@rev code_unit)) in H. rewrite rev_involutive in H.
  simpl in H. apply trimStart_nil_blank in H.
  rewrite blank_rev in H.
  pose proof (trimStart_head s) as Hhd.
  destruct (trimStart s) as [| c t] eqn:E.
  - now apply trimStart_nil_blank.
  - simpl in H. rewrite Hhd in H. discriminate.
Qed.

(** The prompt passes the guard [!prompt.trim()] exactly when it is not
    blank. *)
Lemma truthy_trim (s : js_string) :
  truthy (trim s) = negb (Spec.whitespace_only s).
Proof.
  destruct (Spec.whitespace_only s) eqn:E.
  - now rewrite (trim_blank _ E).
  - destruct (trim s) eqn:Et; [| reflexivity].
    rewrite (trim_nil_blank _ Et) in E. discriminate.
Qed.

(* ===================================================================== *)
(** ** The Encoder *)
(* ===================================================================== *)

Lemma data_url_cut (m b : js_string) :
  Spec.data_url m b = (lit "data:" ++ m ++ lit ";base64") ++ comma :: b.
Proof.
  unfold Spec.data_url. rewrite <- !app_assoc. reflexivity.
Qed.

Lemma data_url_header_no_comma (m : js_string) :
  forallb Spec.is_mime_unit m = true ->
  no_comma (lit "data:" ++ m ++ lit ";base64") = true.
Proof.
  intros Hm. rewrite !no_comma_app, (mime_units_no_comma _ Hm). reflexivity.
Qed.

Lemma match_mime_data_header (m : js_string) :
  forallb Spec.is_mime_unit m = true ->
  match_mime (lit "data:" ++ m ++ lit ";base64") = Some m.
Proof.
  intros Hm.
  change (lit "data:" ++ m ++ lit ";base64")
    with (100 :: 97 :: 116 :: 97 :: colon :: m ++ semicolon :: lit "base64").
  cbn [match_mime]. cbn [N.eqb Pos.eqb colon].
  now rewrite (lazy_dots_capture _ _ Hm).
Qed.

Lemma mime_between_data_header (m : js_string) :
  forallb Spec.is_mime_unit m = true ->
  Spec.mime_between (lit "data:" ++ m ++ lit ";base64") = Some m.
Proof.
  intros Hm.
  change (lit "data:" ++ m ++ lit ";base64")
    with (100 :: 97 :: 116 :: 97 :: colon :: m ++ semicolon :: lit "base64").
  unfold Spec.mime_between. cbn [Spec.after_first]. cbn [N.eqb Pos.eqb colon].
  now apply up_to_first_semicolon.
Qed.

(** What [onload] makes of [data:<m>;base64,<b>]. *)
Lemma onload_data_url (m b : js_string) :
  Spec.well_formed_mime m = true ->
  Spec.well_formed_payload b = true ->
  onload (Spec.data_url m b)
  = {| base64 := Some b; mimeType := m; dataUrl := Spec.data_url m b |}.
Proof.
  intros Hm Hb. unfold Spec.well_formed_mime in Hm.
  apply andb_true_iff in Hm. destruct Hm as [Hne Hm].
  unfold onload. rewrite data_url_cut at 1 2.
  rewrite (split_at_comma _ _ (data_url_header_no_comma _ Hm)).
  rewrite (split_without_comma b Hb). cbn [hd nth_error].
  rewrite (match_mime_data_header _ Hm). unfold or_else. rewrite Hne.
  reflexivity.
Qed.

Lemma onload_mimeType (r : js_string) :
  mimeType (onload r) = or_else (match_mime (hd [] (split comma r))) default_mime.
Proof. reflexivity. Qed.

Section Encoder.

Context {File : Type} (readAsDataURL : File -> read_outcome).

Lemma fileToData_loaded (file : File) (r : js_string) :
  readAsDataURL file = Loaded r ->
  fileToData readAsDataURL file = (Resolved (onload r), []).
Proof. intros H. unfold fileToData. now rewrite H. Qed.

Lemma fileToData_failed (file : File) (ev : thrown) :
  readAsDataURL file = Failed ev ->
  fileToData readAsDataURL file = (Rejected ev, []).
Proof. intros H. unfold fileToData. now rewrite H. Qed.

Lemma fileToData_resolved_inv (file : File) (d : FileData) :
  outcome (fileToData readAsDataURL file) = Resolved d ->
  exists r, readAsDataURL file = Loaded r /\ d = onload r.
Proof.
  unfold fileToData, outcome.
  destruct (readAsDataURL file) as [r | ev]; simpl; intros H.
  - inversion H. now exists r.
  - discriminate.
Qed.

(** C3.  When reading [file] yields the data URL
    [data:<m>;base64,<b>] (with [m] a well-formed MIME string and [b] a
    comma-free payload), [fileToData] resolves to a triple whose [base64]
    is [b], whose [mimeType] is [m] and whose [dataUrl] is
    [data:<mimeType>;base64,<base64>]; cutting that [dataUrl] at its first
    comma gives back the returned [base64], and the header's text between
    [:] and the first [;] is the returned [mimeType]. *)
Theorem fileToData_round_trip (file : File) (r m b : js_string) :
  readAsDataURL file = Loaded r ->
  Spec.well_formed_data_url r m b ->
  exists (d : FileData) (header : js_string),
    outcome (fileToData readAsDataURL file) = Resolved d
    /\ base64 d = Some b
    /\ mimeType d = m
    /\ dataUrl d = Spec.data_url (mimeType d) b
    /\ Spec.split_at_first_comma (dataUrl d) = Some (header, b)
    /\ Spec.mime_between header = Some (mimeType d).
Proof.
  intros Hread (-> & Hm & Hb).
  exists (onload (Spec.data_url m b)), (lit "data:" ++ m ++ lit ";base64").
  rewrite (fileToData_loaded _ _ Hread), (onload_data_url _ _ Hm Hb).
  cbn [outcome fst base64 mimeType dataUrl].
  unfold Spec.well_formed_mime in Hm.
  apply andb_true_iff in Hm. destruct Hm as [_ Hm].
  repeat split.
  - rewrite data_url_cut.
    apply split_at_first_comma_app, data_url_header_no_comma, Hm.
  - apply mime_between_data_header, Hm.
Qed.

(** C7 (as the code has it).  When the header of the encoded string has
    no [:...;] segment, [fileToData] resolves with [mimeType] equal to
    [application/octet-stream] and [dataUrl] equal to the whole encoded
    string; [base64] is the text between the first comma and the next
    comma (or the end), hence the whole payload after the first comma
    when that payload holds no further comma, and it is [undefined] when
    the string holds no comma at all. *)
Theorem fileToData_default_mime (file : File) (r : js_string) :
  readAsDataURL file = Loaded r ->
  match_mime (hd [] (split comma r)) = None ->
  exists d : FileData,
    outcome (fileToData readAsDataURL file) = Resolved d
    /\ mimeType d = default_mime
    /\ dataUrl d = r
    /\ base64 d
       = option_map (fun cut => Spec.until_comma (snd cut))
                    (Spec.split_at_first_comma r)
    /\ (forall header payload,
          Spec.split_at_first_comma r = Some (header, payload) ->
          no_comma payload = true ->
          base64 d = Some payload).
Proof.
  intros Hread Hno. exists (onload r).
  rewrite (fileToData_loaded _ _ Hread).
  assert (Hb : base64 (onload r)
               = option_map (fun cut => Spec.until_comma (snd cut))
                            (Spec.split_at_first_comma r)).
  { unfold onload. cbn [base64].
    pose proof (split_vs_first_comma r) as Hcut.
    destruct (Spec.split_at_first_comma r) as [[h p] |]; simpl;
      now destruct Hcut. }
  repeat split.
  - rewrite onload_mimeType, Hno. reflexivity.
  - exact Hb.
  - intros header payload Hcut Hpayload. rewrite Hb, Hcut. simpl.
    now rewrite until_comma_without_comma.
Qed.

(** An empty text between the first [:] and the first [;] after it is
    an empty capture of the regular expression. *)
Lemma match_mime_empty_segment (header : js_string) :
  Spec.mime_between header = Some [] -> match_mime header = Some [].
Proof.
  unfold Spec.mime_between.
  induction header as [| c s IH]; simpl; intros H.
  - discriminate.
  - destruct (c =? colon); [| exact (IH H)].
    destruct s as [| c' s']; simpl in *; [discriminate |].
    destruct (c' =? semicolon); [reflexivity |].
    destruct (Spec.up_to_first semicolon s'); discriminate.
Qed.

(** C10.  Whatever encoded string the read yields, [fileToData]
    resolves with a [mimeType] that is not the empty string; and when in
    the header (the text before the first comma) nothing stands between
    the first [:] and the [;] after it, as in [data:;base64], the
    [mimeType] is [application/octet-stream]. *)
Theorem fileToData_mime_never_empty (file : File) (r : js_string) :
  readAsDataURL file = Loaded r ->
  exists d : FileData,
    outcome (fileToData readAsDataURL file) = Resolved d
    /\ mimeType d <> []
    /\ (Spec.mime_between (Spec.until_comma r) = Some [] ->
        mimeType d = lit "application/octet-stream").
Proof.
  intros Hread. exists (onload r).
  rewrite (fileToData_loaded _ _ Hread). split; [reflexivity |].
  rewrite onload_mimeType. split.
  - apply or_else_default_truthy.
  - intros Hempty. rewrite hd_split_until_comma.
    now rewrite (match_mime_empty_segment _ Hempty).
Qed.

End Encoder.

(* ===================================================================== *)
(** ** The Edit Client *)
(* ===================================================================== *)

Lemma data_uri_of_blob_spec (blob : Blob) :
  data_uri_of_blob blob
  = Spec.data_url (template (blob_mimeType blob)) (template (blob_data blob)).
Proof. reflexivity. Qed.

(** The loop runs off the end exactly when no part carries inline data. *)
Lemma scan_parts_none (ps : list Part) :
  existsb Spec.carries_inline ps = false -> scan_parts ps = None.
Proof.
  induction ps as [| part rest IH]; simpl; intros H.
  - reflexivity.
  - unfold Spec.carries_inline in H at 1.
    destruct (inlineData part); [discriminate | exact (IH H)].
Qed.

(** Otherwise it returns at the first part that does, whatever follows. *)
Lemma scan_parts_first (ps : list Part) :
  existsb Spec.carries_inline ps = true ->
  exists before part blob after,
    ps = before ++ part :: after
    /\ Forall (fun q => inlineData q = None) before
    /\ inlineData part = Some blob
    /\ scan_parts ps = Some (data_uri_of_blob blob).
Proof.
  induction ps as [| p rest IH]; simpl; intros H.
  - discriminate.
  - unfold Spec.carries_inline in H at 1.
    destruct (inlineData p) as [blob |] eqn:Ep.
    + exists [], p, blob, rest. repeat split; auto.
    + destruct (IH H) as (before & part & blob & after & -> & Hb & Hp & Hs).
      exists (p :: before), part, blob, after. repeat split; auto.
Qed.

Lemma scan_parts_skips (before after : list Part) (part : Part) (blob : Blob) :
  Forall (fun q => inlineData q = None) before ->
  inlineData part = Some blob ->
  scan_parts (before ++ part :: after) = Some (data_uri_of_blob blob).
Proof.
  intros Hb Hp. induction Hb as [| q before Hq _ IH]; simpl.
  - now rewrite Hp.
  - now rewrite Hq.
Qed.

Section EditClient.

Context (generateContent :
           GenerateContentParameters -> thrown + GenerateContentResponse).

(** One run of [editImageWithPrompt], case by case on what the provider
    does with the one request. *)
Lemma editImageWithPrompt_run (b : option js_string) (m p : js_string) :
  editImageWithPrompt generateContent b m p
  = let request := edit_request b m p in
    match generateContent request with
    | inr response =>
        match scan_parts (first_candidate_parts response) with
        | Some uri => (Resolved uri, [NetworkCall request])
        | None =>
            (Rejected (Error generic_failure_message),
             [NetworkCall request;
              ConsoleError [ArgString api_error_label;
                            ArgThrown (Error no_image_message)]])
        end
    | inl err =>
        (Rejected (Error generic_failure_message),
         [NetworkCall request;
          ConsoleError [ArgString api_error_label; ArgThrown err]])
    end.
Proof.
  unfold editImageWithPrompt, call_generateContent. cbv zeta.
  destruct (generateContent (edit_request b m p)) as [err | response].
  - reflexivity.
  - cbn [perform bind ret app].
    destruct (scan_parts (first_candidate_parts response)); reflexivity.
Qed.

(** A response without any inline part ends in the generic rejection; the
    dedicated error only reaches the console. *)
Lemma edit_without_image_rejects_generic (b : option js_string) (m p : js_string)
    (response : GenerateContentResponse) :
  generateContent (edit_request b m p) = inr response ->
  existsb Spec.carries_inline (first_candidate_parts response) = false ->
  editImageWithPrompt generateContent b m p
  = (Rejected (Error generic_failure_message),
     [NetworkCall (edit_request b m p);
      ConsoleError [ArgString api_error_label;
                    ArgThrown (Error no_image_message)]]).
Proof.
  intros Hcall Hnone. rewrite editImageWithPrompt_run. cbv zeta.
  now rewrite Hcall, (scan_parts_none _ Hnone).
Qed.

(** C2.  When the parts of the first candidate hold a part with inline
    data, [editImageWithPrompt] resolves to
    [data:<mimeType>;base64,<data>] built from the first such part: the
    parts before it carry no inline data and are passed over, what
    follows it and the other candidates are not looked at, and the MIME
    type is the one of the response, the input's [m] playing no role.  (A
    field the part lacks prints as "undefined".) *)
Theorem editImageWithPrompt_first_inline (b : option js_string)
    (m p : js_string) (response : GenerateContentResponse)
    (first : Candidate) (others : list Candidate) (c : Content)
    (ps : list Part) :
  generateContent (edit_request b m p) = inr response ->
  candidates response = Some (first :: others) ->
  content first = Some c ->
  parts c = Some ps ->
  existsb Spec.carries_inline ps = true ->
  exists before part blob after,
    ps = before ++ part :: after
    /\ Forall (fun q => inlineData q = None) before
    /\ inlineData part = Some blob
    /\ outcome (editImageWithPrompt generateContent b m p)
       = Resolved (Spec.data_url (Spec.interpolated (blob_mimeType blob))
                                 (Spec.interpolated (blob_data blob))).
Proof.
  intros Hcall Hcandidates Hcontent Hparts Hsome.
  destruct (scan_parts_first _ Hsome)
    as (before & part & blob & after & Hps & Hb & Hp & Hs).
  exists before, part, blob, after. repeat split; auto.
  rewrite editImageWithPrompt_run. cbv zeta. rewrite Hcall.
  unfold first_candidate_parts. rewrite Hcandidates, Hcontent, Hparts, Hs.
  destruct blob as [[data |] [mime |]]; reflexivity.
Qed.

(** C5.  Whatever the provider call fails with, [editImageWithPrompt]
    rejects with one fixed message, chosen without looking at the
    failure; the failure itself goes to the console and nowhere else. *)
Theorem editImageWithPrompt_api_failure (b : option js_string)
    (m p : js_string) (err : thrown) :
  generateContent (edit_request b m p) = inl err ->
  outcome (editImageWithPrompt generateContent b m p)
  = Rejected (Error generic_failure_message)
  /\ effects (editImageWithPrompt generateContent b m p)
     = [NetworkCall (edit_request b m p);
        ConsoleError [ArgString api_error_label; ArgThrown err]].
Proof.
  intros Hcall. rewrite editImageWithPrompt_run. cbv zeta.
  now rewrite Hcall.
Qed.

End EditClient.

(** C8.  Every invocation of [editImageWithPrompt] issues exactly one
    network call; the request of that call holds the three arguments as
    they were given; and how the promise settles is a function of the
    provider's answer to that one request, the same function for every
    provider and every argument. *)
Theorem editImageWithPrompt_single_call :
  exists settle : thrown + GenerateContentResponse -> settled js_string,
  forall (generateContent :
            GenerateContentParameters -> thrown + GenerateContentResponse)
         (b : option js_string) (m p : js_string),
    network_calls (effects (editImageWithPrompt generateContent b m p))
    = [edit_request b m p]
    /\ contents_parts (edit_request b m p)
       = [ {| inlineData := Some {| blob_data := b;
                                    blob_mimeType := Some m |};
              text := None |};
           {| inlineData := None; text := Some p |} ]
    /\ outcome (editImageWithPrompt generateContent b m p)
       = settle (generateContent (edit_request b m p)).
Proof.
  exists (fun answer =>
            match answer with
            | inr response =>
                match scan_parts (first_candidate_parts response) with
                | Some uri => Resolved uri
                | None => Rejected (Error generic_failure_message)
                end
            | inl _ => Rejected (Error generic_failure_message)
            end).
  intros generateContent b m p.
  rewrite editImageWithPrompt_run. cbv zeta.
  destruct (generateContent (edit_request b m p)) as [err | response].
  - repeat split; reflexivity.
  - destruct (scan_parts (first_candidate_parts response));
      repeat split; reflexivity.
Qed.

(** C1 (the code at a response without image).  The provider answers
    with a single text part: the promise is rejected with the generic
    message, the very rejection an API failure gives, and not with
    "No image data was found in the API response.", which is only
    logged. *)
Theorem editImageWithPrompt_no_image_masked :
  let run :=
    editImageWithPrompt (Fixture.answering [Fixture.text_part])
      (Some (lit "AAAA")) (lit "image/png") (lit "make it blue") in
  outcome run = Rejected (Error generic_failure_message)
  /\ outcome run <> Rejected (Error no_image_message)
  /\ outcome run
     = outcome (editImageWithPrompt (Fixture.failing (lit "401 Unauthorized"))
                  (Some (lit "AAAA")) (lit "image/png") (lit "make it blue"))
  /\ In (ConsoleError [ArgString api_error_label;
                       ArgThrown (Error no_image_message)])
        (effects run).
Proof.
  cbv zeta. repeat split.
  - intros H. vm_compute in H. discriminate H.
  - right. left. reflexivity.
Qed.

(* ===================================================================== *)
(** ** The controller *)
(* ===================================================================== *)

Section Controller.

Context {File : Type} (readAsDataURL : File -> read_outcome).
Context (generateContent :
           GenerateContentParameters -> thrown + GenerateContentResponse).

(** The guard of [handleGenerate] lets a state through exactly when it
    has a file and a prompt that is not blank. *)
Lemma handleGenerate_guard (s : AppState File) :
  uploadedImageFile s = None \/ Spec.whitespace_only (prompt s) = true ->
  handleGenerate readAsDataURL generateContent s = reject_generate File s.
Proof.
  intros [Hfile | Hblank]; unfold handleGenerate.
  - now rewrite Hfile.
  - rewrite (trim_blank _ Hblank). simpl.
    now destruct (uploadedImageFile s).
Qed.

Lemma handleGenerate_dispatch (s : AppState File) (file : File) :
  uploadedImageFile s = Some file ->
  truthy (trim (prompt s)) = true ->
  handleGenerate readAsDataURL generateContent s
  = let loading :=
      setGeneratedImage None (setError None (setIsLoading true s)) in
    match generate_attempt readAsDataURL generateContent file (prompt s) with
    | (Resolved resultDataUrl, fx) =>
        let s2 := setGeneratedImage (Some resultDataUrl) loading in
        {| renders := [loading; s2; setIsLoading false s2];
           run_effects := fx |}
    | (Rejected err, fx) =>
        let s2 :=
          setError (Some (or_else (message_of err) unknown_error_message))
                   loading in
        {| renders := [loading; s2; setIsLoading false s2];
           run_effects := fx ++ [ConsoleError [ArgThrown err]] |}
    end.
Proof.
  intros Hfile Hprompt. unfold handleGenerate.
  now rewrite Hfile, Hprompt.
Qed.

(** C4.  When no image is uploaded, or the prompt is empty or holds
    white space only, [handleGenerate] performs no effect at all (so no
    network call), sets the error to "Please upload an image and enter a
    prompt." and leaves every other cell of the state as it was. *)
Theorem handleGenerate_validation (s : AppState File) :
  uploadedImageFile s = None \/ Spec.whitespace_only (prompt s) = true ->
  let r := handleGenerate readAsDataURL generateContent s in
  let s' := final_state s r in
  run_effects r = []
  /\ network_calls (run_effects r) = []
  /\ renders r = [setError (Some validation_message) s]
  /\ error s' = Some validation_message
  /\ isLoading s' = isLoading s
  /\ generatedImage s' = generatedImage s
  /\ uploadedImagePreview s' = uploadedImagePreview s
  /\ prompt s' = prompt s
  /\ uploadedImageFile s' = uploadedImageFile s.
Proof.
  intros Hguard. cbv zeta. rewrite (handleGenerate_guard _ Hguard).
  repeat split.
Qed.

(** C9.  On a valid dispatch (a file and a prompt that is not blank) the
    first state rendered, the one shown while the request is awaited, is
    fixed before the attempt settles: it has the loading flag set and
    neither a generated image nor an error; in
    every state rendered while the flag is set, an image or an error
    shown is the one of this very attempt; when the attempt fails no
    rendered state shows a generated image; and the run ends with the
    flag cleared. *)
Theorem handleGenerate_clears_first (s : AppState File) (file : File) :
  uploadedImageFile s = Some file ->
  truthy (trim (prompt s)) = true ->
  let r := handleGenerate readAsDataURL generateContent s in
  let attempt := outcome (generate_attempt readAsDataURL generateContent file (prompt s)) in
  exists loading rest,
    renders r = loading :: rest
    /\ loading = setGeneratedImage None (setError None (setIsLoading true s))
    /\ isLoading loading = true
    /\ generatedImage loading = None
    /\ error loading = None
    /\ Forall (Spec.nothing_stale attempt) (renders r)
    /\ (forall err, attempt = Rejected err ->
          Forall (fun st => generatedImage st = None) (renders r))
    /\ isLoading (final_state s r) = false.
Proof.
  intros Hfile Hprompt. cbv zeta.
  rewrite (handleGenerate_dispatch _ _ Hfile Hprompt). cbv zeta.
  destruct (generate_attempt readAsDataURL generateContent file (prompt s)) as [[url | err] fx];
    cbn [outcome fst renders];
    eexists; eexists; (split; [reflexivity |]);
    (split; [reflexivity |]); (split; [reflexivity |]);
    (split; [reflexivity |]); (split; [reflexivity |]);
    (split; [| split; [| reflexivity]]).
  - repeat apply Forall_cons; try apply Forall_nil;
      intros _; simpl; split; eauto.
  - intros err H. discriminate H.
  - repeat apply Forall_cons; try apply Forall_nil;
      intros _; simpl; split; eauto.
  - intros err' _. repeat apply Forall_cons; try apply Forall_nil;
      reflexivity.
Qed.


End Controller.

(* ===================================================================== *)
(** ** The statements at sample inputs *)
(* ===================================================================== *)

(** [fileToData] on a PNG data URL. *)
Lemma fileToData_round_trip_png :
  exists (d : FileData) (header : js_string),
    outcome (fileToData Fixture.reader Fixture.png_file) = Resolved d
    /\ base64 d = Some (lit "iVBORw0KGgo=")
    /\ mimeType d = lit "image/png"
    /\ dataUrl d = Spec.data_url (mimeType d) (lit "iVBORw0KGgo=")
    /\ Spec.split_at_first_comma (dataUrl d)
       = Some (header, lit "iVBORw0KGgo=")
    /\ Spec.mime_between header = Some (mimeType d).
Proof.
  apply (fileToData_round_trip Fixture.reader Fixture.png_file
           Fixture.png_file (lit "image/png") (lit "iVBORw0KGgo=")).
  - reflexivity.
  - repeat split; reflexivity.
Defined.

(** [fileToData] on the bare string [data:]: no segment, no comma. *)
Lemma fileToData_default_mime_bare :
  exists d : FileData,
    outcome (fileToData Fixture.reader Fixture.bare_file) = Resolved d
    /\ mimeType d = default_mime
    /\ dataUrl d = Fixture.bare_file
    /\ base64 d
       = option_map (fun cut => Spec.until_comma (snd cut))
                    (Spec.split_at_first_comma Fixture.bare_file)
    /\ (forall header payload,
          Spec.split_at_first_comma Fixture.bare_file
          = Some (header, payload) ->
          no_comma payload = true ->
          base64 d = Some payload).
Proof.
  apply (fileToData_default_mime Fixture.reader Fixture.bare_file
           Fixture.bare_file).
  - reflexivity.
  - reflexivity.
Defined.

(** The encoded string of a blob whose type holds a comma: the header
    [data:a] has no [:...;] segment, and [base64] is the middle segment
    [b;base64], not the payload after the first comma. *)
Lemma fileToData_second_comma_cuts_payload :
  ~ (forall (File : Type) (readAsDataURL : File -> read_outcome)
            (file : File) (r : js_string),
        readAsDataURL file = Loaded r ->
        match_mime (hd [] (split comma r)) = None ->
        exists d : FileData,
          outcome (fileToData readAsDataURL file) = Resolved d
          /\ Spec.default_mime_result r d).
Proof.
  intros claim.
  destruct (claim js_string Fixture.reader Fixture.comma_typed_file
              Fixture.comma_typed_file eq_refl eq_refl)
    as (d & Hd & _ & Hbase64 & _).
  vm_compute in Hd. inversion Hd; subst d.
  vm_compute in Hbase64. discriminate Hbase64.
Qed.

(** [fileToData] on [data:;base64,AAAA]: nothing stands between the
    [:] and the [;], and the MIME type is the default. *)
Lemma fileToData_mime_never_empty_untyped :
  Spec.mime_between (Spec.until_comma (lit "data:;base64,AAAA")) = Some []
  /\ exists d : FileData,
       outcome (fileToData Fixture.reader (lit "data:;base64,AAAA"))
       = Resolved d
       /\ mimeType d <> []
       /\ mimeType d = lit "application/octet-stream".
Proof.
  split; [reflexivity |].
  destruct (fileToData_mime_never_empty Fixture.reader
              (lit "data:;base64,AAAA") (lit "data:;base64,AAAA") eq_refl)
    as (d & Hd & Hne & Hfallback).
  exists d. split; [exact Hd |]. split; [exact Hne |].
  apply Hfallback. reflexivity.
Defined.

(** The first candidate holds a text part, a WebP image and a PNG
    image, the second candidate a PNG image; the input is a PNG.  The
    result is the WebP image. *)
Lemma editImageWithPrompt_first_inline_webp :
  outcome (editImageWithPrompt (fun _ => inr Sample.two_candidates)
             (Some (lit "AAAA")) (lit "image/png") (lit "make it blue"))
  = Resolved (lit "data:image/webp;base64,Y").
Proof.
  destruct (editImageWithPrompt_first_inline
              (fun _ => inr Sample.two_candidates)
              (Some (lit "AAAA")) (lit "image/png") (lit "make it blue")
              Sample.two_candidates Sample.text_webp_png_candidate
              [Sample.png_candidate]
              {| parts := Some Sample.text_webp_png |}
              Sample.text_webp_png
              eq_refl eq_refl eq_refl eq_refl eq_refl)
    as (before & part & blob & after & Hps & Hbefore & Hpart & Hout).
  rewrite Hout. clear Hout.
  destruct before as [| q1 [| q2 [| q3 before]]];
    unfold Sample.text_webp_png in Hps; simpl in Hps.
  - inversion Hps; subst part after. discriminate Hpart.
  - inversion Hps; subst q1 part after. simpl in Hpart.
    inversion Hpart; subst blob. reflexivity.
  - inversion Hps; subst q1 q2 part after.
    inversion Hbefore as [| ? ? _ Hrest]; subst.
    inversion Hrest as [| ? ? Hwebp _]; subst. discriminate Hwebp.
  - inversion Hps as [[H1 H2 H3 Hnil]]. destruct before; discriminate Hnil.
Defined.

(** The provider refuses the key. *)
Lemma editImageWithPrompt_api_failure_unauthorized :
  outcome (editImageWithPrompt (Fixture.failing (lit "401 Unauthorized"))
             (Some (lit "AAAA")) (lit "image/png") (lit "make it blue"))
  = Rejected (Error generic_failure_message)
  /\ effects (editImageWithPrompt (Fixture.failing (lit "401 Unauthorized"))
                (Some (lit "AAAA")) (lit "image/png") (lit "make it blue"))
     = [NetworkCall (edit_request (Some (lit "AAAA")) (lit "image/png")
                                  (lit "make it blue"));
        ConsoleError [ArgString api_error_label;
                      ArgThrown (ProviderError (lit "401 Unauthorized"))]].
Proof.
  apply (editImageWithPrompt_api_failure
           (Fixture.failing (lit "401 Unauthorized"))
           (Some (lit "AAAA")) (lit "image/png") (lit "make it blue")
           (ProviderError (lit "401 Unauthorized"))).
  reflexivity.
Defined.

(** Generate with a prompt of three spaces. *)
Lemma handleGenerate_validation_blank :
  let s := Fixture.blank_prompt in
  let r := handleGenerate Fixture.reader (Fixture.answering [Fixture.webp_part]) s in
  let s' := final_state s r in
  run_effects r = []
  /\ network_calls (run_effects r) = []
  /\ renders r = [setError (Some validation_message) s]
  /\ error s' = Some validation_message
  /\ isLoading s' = isLoading s
  /\ generatedImage s' = generatedImage s
  /\ uploadedImagePreview s' = uploadedImagePreview s
  /\ prompt s' = prompt s
  /\ uploadedImageFile s' = uploadedImageFile s.
Proof.
  apply (handleGenerate_validation Fixture.reader
           (Fixture.answering [Fixture.webp_part]) Fixture.blank_prompt).
  right. reflexivity.
Defined.

(** Regenerate while a result is shown, the provider failing. *)
Lemma handleGenerate_clears_first_regenerate :
  let s := Fixture.showing_result in
  let r := handleGenerate Fixture.reader (Fixture.failing (lit "429")) s in
  let attempt :=
    outcome (generate_attempt Fixture.reader (Fixture.failing (lit "429"))
               Fixture.png_file (prompt s)) in
  exists loading rest,
    renders r = loading :: rest
    /\ loading = setGeneratedImage None (setError None (setIsLoading true s))
    /\ isLoading loading = true
    /\ generatedImage loading = None
    /\ error loading = None
    /\ Forall (Spec.nothing_stale attempt) (renders r)
    /\ (forall err, attempt = Rejected err ->
          Forall (fun st => generatedImage st = None) (renders r))
    /\ isLoading (final_state s r) = false.
Proof.
  apply (handleGenerate_clears_first Fixture.reader
           (Fixture.failing (lit "429")) Fixture.showing_result
           Fixture.png_file).
  - reflexivity.
  - reflexivity.
Defined.


(* ===================================================================== *)
(** ** More about the Encoder *)
(* ===================================================================== *)

(** Where the lazy star stopped: right before the first [;], having
    crossed neither a [;] nor a line terminator. *)
Lemma lazy_dots_capture_inv (s cap : js_string) :
  lazy_dots_then_semicolon s = Some cap ->
  exists post,
    s = cap ++ semicolon :: post
    /\ forallb (fun c => negb (c =? semicolon) && negb (is_line_terminator c))
               cap = true.
Proof.
  revert cap. induction s as [| c s IH]; simpl; intros cap H.
  - discriminate.
  - destruct (c =? semicolon) eqn:Esemi.
    + inversion H; subst cap. apply N.eqb_eq in Esemi. subst c.
      now exists s.
    + destruct (is_line_terminator c) eqn:Elt; [discriminate |].
      destruct (lazy_dots_then_semicolon s) as [cap' |]; [| discriminate].
      inversion H; subst cap.
      destruct (IH cap' eq_refl) as (post & -> & Hcap).
      exists post. split; [reflexivity |].
      simpl. now rewrite Esemi, Elt, Hcap.
Qed.

Lemma match_mime_capture_inv (s cap : js_string) :
  match_mime s = Some cap ->
  exists pre post,
    s = pre ++ colon :: cap ++ semicolon :: post
    /\ forallb (fun c => negb (c =? semicolon) && negb (is_line_terminator c))
               cap = true.
Proof.
  induction s as [| c s IH]; simpl; intros H.
  - discriminate.
  - destruct (c =? colon) eqn:Ecolon.
    + apply N.eqb_eq in Ecolon. subst c.
      destruct (lazy_dots_then_semicolon s) as [cap' |] eqn:Elazy.
      * inversion H; subst cap'.
        destruct (lazy_dots_capture_inv _ _ Elazy) as (post & -> & Hcap).
        now exists [], post.
      * destruct (IH H) as (pre & post & -> & Hcap).
        now exists (colon :: pre), post.
    + destruct (IH H) as (pre & post & -> & Hcap).
      now exists (c :: pre), post.
Qed.

(** With no line terminator in the way the lazy star always finds the
    [;]. *)
Lemma lazy_dots_finds_semicolon (mid post : js_string) :
  forallb (fun c => negb (is_line_terminator c)) mid = true ->
  lazy_dots_then_semicolon (mid ++ semicolon :: post) <> None.
Proof.
  induction mid as [| c mid IH]; simpl; intros H.
  - discriminate.
  - apply andb_true_iff in H. destruct H as [Hc Hmid].
    apply negb_true_iff in Hc. rewrite Hc.
    destruct (c =? semicolon); [discriminate |].
    destruct (lazy_dots_then_semicolon (mid ++ semicolon :: post)) eqn:E.
    + discriminate.
    + now apply IH in Hmid.
Qed.

Lemma match_mime_finds_segment (pre mid post : js_string) :
  forallb (fun c => negb (is_line_terminator c)) mid = true ->
  match_mime (pre ++ colon :: mid ++ semicolon :: post) <> None.
Proof.
  intros Hmid. induction pre as [| c pre IH]; simpl.
  - destruct (lazy_dots_then_semicolon (mid ++ semicolon :: post)) eqn:E.
    + discriminate.
    + now apply lazy_dots_finds_semicolon in E.
  - destruct (c =? colon); [| exact IH].
    now destruct (lazy_dots_then_semicolon
                    (pre ++ colon :: mid ++ semicolon :: post)).
Qed.

Lemma until_comma_no_comma (s : js_string) :
  no_comma (Spec.until_comma s) = true.
Proof.
  induction s as [| c s IH]; simpl.
  - reflexivity.
  - destruct (c =? comma) eqn:E; [reflexivity |].
    simpl. now rewrite E, IH.
Qed.

Lemma header_no_comma (r : js_string) :
  no_comma (hd [] (split comma r)) = true.
Proof. rewrite hd_split_until_comma. apply until_comma_no_comma. Qed.

Lemma second_segment_no_comma (r b : js_string) :
  nth_error (split comma r) 1 = Some b -> no_comma b = true.
Proof.
  pose proof (split_vs_first_comma r) as Hcut.
  destruct (Spec.split_at_first_comma r) as [[h p] |].
  - destruct Hcut as [_ Hsecond]. rewrite Hsecond. intros H.
    inversion H. apply until_comma_no_comma.
  - destruct Hcut as [_ Hsecond]. rewrite Hsecond. discriminate.
Qed.

Lemma mime_units_from (s : js_string) :
  no_comma s = true ->
  forallb (fun c => negb (c =? semicolon) && negb (is_line_terminator c))
          s = true ->
  forallb Spec.is_mime_unit s = true.
Proof.
  induction s as [| c s IH]; simpl; intros Hcomma Hdots.
  - reflexivity.
  - apply andb_true_iff in Hcomma. destruct Hcomma as [Hc Hs].
    apply andb_true_iff in Hdots. destruct Hdots as [Hd Hs'].
    unfold Spec.is_mime_unit at 1. rewrite Hc. simpl.
    now rewrite Hd, IH.
Qed.

(** The [mimeType] of [onload] always is a well-formed MIME string. *)
Lemma onload_mime_well_formed (r : js_string) :
  Spec.well_formed_mime (mimeType (onload r)) = true.
Proof.
  rewrite onload_mimeType.
  destruct (match_mime (hd [] (split comma r))) as [[| c cap] |] eqn:E;
    try reflexivity.
  destruct (match_mime_capture_inv _ _ E) as (pre & post & Hheader & Hdots).
  pose proof (header_no_comma r) as Hcomma. rewrite Hheader in Hcomma.
  rewrite no_comma_app in Hcomma.
  apply andb_true_iff in Hcomma. destruct Hcomma as [_ Hcomma].
  change (colon :: (c :: cap) ++ semicolon :: post)
    with ([colon] ++ (c :: cap) ++ semicolon :: post) in Hcomma.
  rewrite !no_comma_app in Hcomma.
  apply andb_true_iff in Hcomma. destruct Hcomma as [_ Hcomma].
  apply andb_true_iff in Hcomma. destruct Hcomma as [Hcomma _].
  unfold or_else, Spec.well_formed_mime. cbn [truthy andb].
  now apply mime_units_from.
Qed.

(** [onload] on a string with exactly one comma. *)
Lemma onload_one_comma (h b : js_string) :
  no_comma h = true ->
  no_comma b = true ->
  onload (h ++ comma :: b)
  = {| base64 := Some b;
       mimeType := or_else (match_mime h) default_mime;
       dataUrl := h ++ comma :: b |}.
Proof.
  intros Hh Hb. unfold onload.
  now rewrite (split_at_comma _ _ Hh), (split_without_comma _ Hb).
Qed.

Section EncoderMore.

Context {File : Type} (readAsDataURL : File -> read_outcome).

(** X1.  Whatever the encoded string, the [mimeType] [fileToData]
    resolves with is a well-formed MIME string (not empty, without comma,
    semicolon or line terminator); it is the default
    [application/octet-stream], or it stands in the header between a [:]
    and a [;]. *)
Theorem fileToData_mime_shape (file : File) (r : js_string) :
  readAsDataURL file = Loaded r ->
  exists d : FileData,
    outcome (fileToData readAsDataURL file) = Resolved d
    /\ Spec.well_formed_mime (mimeType d) = true
    /\ (mimeType d = default_mime
        \/ exists pre post,
             hd [] (split comma r)
             = pre ++ colon :: mimeType d ++ semicolon :: post).
Proof.
  intros Hread. exists (onload r).
  rewrite (fileToData_loaded _ _ _ Hread).
  split; [reflexivity |]. split; [apply onload_mime_well_formed |].
  rewrite onload_mimeType.
  destruct (match_mime (hd [] (split comma r))) as [[| c cap] |] eqn:E.
  - now left.
  - right. destruct (match_mime_capture_inv _ _ E) as (pre & post & H & _).
    now exists pre, post.
  - now left.
Qed.

(** X2.  Encoding is stable: when [fileToData] resolves with a [base64],
    the string [data:<mimeType>;base64,<base64>] rebuilt from its answer
    is encoded to the same [base64] and [mimeType], with that string as
    [dataUrl]. *)
Theorem fileToData_reencode (file file' : File) (d : FileData)
    (b : js_string) :
  outcome (fileToData readAsDataURL file) = Resolved d ->
  base64 d = Some b ->
  readAsDataURL file' = Loaded (Spec.data_url (mimeType d) b) ->
  outcome (fileToData readAsDataURL file')
  = Resolved {| base64 := Some b;
                mimeType := mimeType d;
                dataUrl := Spec.data_url (mimeType d) b |}.
Proof.
  intros Hd Hb Hread'.
  destruct (fileToData_resolved_inv _ _ _ Hd) as (r & _ & ->).
  rewrite (fileToData_loaded _ _ _ Hread'). cbn [outcome fst].
  rewrite onload_data_url; [reflexivity | apply onload_mime_well_formed |].
  unfold onload in Hb. cbn [base64] in Hb.
  exact (second_segment_no_comma _ _ Hb).
Qed.

(** X3.  Parameters of the media type are dropped: for the encoded string
    [data:<m>;<params>;base64,<b>], [fileToData] resolves with [mimeType]
    [m] and [base64] [b], so its [dataUrl] (the whole string) is not
    [data:<mimeType>;base64,<base64>]. *)
Theorem fileToData_drops_parameters (file : File) (m params b : js_string) :
  readAsDataURL file
  = Loaded (lit "data:" ++ m ++ semicolon :: params ++ lit ";base64," ++ b) ->
  Spec.well_formed_mime m = true ->
  no_comma params = true ->
  no_comma b = true ->
  exists d : FileData,
    outcome (fileToData readAsDataURL file) = Resolved d
    /\ mimeType d = m
    /\ base64 d = Some b
    /\ dataUrl d
       = lit "data:" ++ m ++ semicolon :: params ++ lit ";base64," ++ b
    /\ dataUrl d <> Spec.data_url (mimeType d) b.
Proof.
  intros Hread Hm Hparams Hb.
  unfold Spec.well_formed_mime in Hm.
  apply andb_true_iff in Hm. destruct Hm as [Hne Hm].
  exists (onload (lit "data:" ++ m ++ semicolon :: params
                    ++ lit ";base64," ++ b)).
  rewrite (fileToData_loaded _ _ _ Hread).
  split; [reflexivity |].
  assert (Hcut : lit "data:" ++ m ++ semicolon :: params ++ lit ";base64," ++ b
                 = (lit "data:" ++ m ++ semicolon :: params ++ lit ";base64")
                     ++ comma :: b).
  { rewrite <- !app_assoc. cbn [app]. rewrite <- !app_assoc. reflexivity. }
  assert (Hheader : no_comma (lit "data:" ++ m ++ semicolon :: params
                                ++ lit ";base64") = true).
  { change (semicolon :: params ++ lit ";base64")
      with ([semicolon] ++ params ++ lit ";base64").
    rewrite !no_comma_app, (mime_units_no_comma _ Hm), Hparams.
    reflexivity. }
  assert (Hmime : match_mime (lit "data:" ++ m ++ semicolon :: params
                                ++ lit ";base64") = Some m).
  { change (lit "data:" ++ m ++ semicolon :: params ++ lit ";base64")
      with (100 :: 97 :: 116 :: 97 :: colon
              :: m ++ semicolon :: params ++ lit ";base64").
    cbn [match_mime]. cbn [N.eqb Pos.eqb colon].
    now rewrite (lazy_dots_capture _ _ Hm). }
  rewrite Hcut, (onload_one_comma _ _ Hheader Hb), Hmime.
  unfold or_else. rewrite Hne. cbn [mimeType base64 dataUrl].
  split; [reflexivity |]. split; [reflexivity |]. split; [reflexivity |].
  rewrite <- Hcut. intros Heq.
  apply (f_equal (@List.length code_unit)) in Heq.
  unfold Spec.data_url in Heq.
  rewrite !List.length_app in Heq. cbn [List.length] in Heq.
  rewrite !List.length_app in Heq.
  change (List.length (lit ";base64,")) with 8%nat in Heq.
  lia.
Qed.

End EncoderMore.

(** X4.  The regular expression [/:(.*?);/] finds nothing in a header
    exactly when the header has no [:] followed, with no line terminator
    in between, by a [;]. *)
Theorem match_mime_none_iff (header : js_string) :
  match_mime header = None
  <-> ~ (exists pre mid post,
           header = pre ++ colon :: mid ++ semicolon :: post
           /\ forallb (fun c => negb (is_line_terminator c)) mid = true).
Proof.
  split.
  - intros Hnone (pre & mid & post & -> & Hmid).
    exact (match_mime_finds_segment _ _ _ Hmid Hnone).
  - intros Hno. destruct (match_mime header) as [cap |] eqn:E;
      [| reflexivity].
    exfalso. apply Hno.
    destruct (match_mime_capture_inv _ _ E) as (pre & post & -> & Hcap).
    exists pre, cap, post. split; [reflexivity |].
    clear - Hcap. induction cap as [| c cap IH]; simpl in *.
    + reflexivity.
    + apply andb_true_iff in Hcap. destruct Hcap as [Hc Hcap].
      apply andb_true_iff in Hc. destruct Hc as [_ Hc].
      now rewrite Hc, IH.
Qed.

Lemma lazy_dots_is_up_to_first (s : js_string) :
  forallb (fun c => negb (is_line_terminator c)) s = true ->
  lazy_dots_then_semicolon s = Spec.up_to_first semicolon s.
Proof.
  induction s as [| c s IH]; simpl; intros H.
  - reflexivity.
  - apply andb_true_iff in H. destruct H as [Hc Hs].
    apply negb_true_iff in Hc. rewrite Hc, (IH Hs). reflexivity.
Qed.

Lemma up_to_first_none (s : js_string) :
  Spec.up_to_first semicolon s = None ->
  forallb (fun c => negb (c =? semicolon)) s = true.
Proof.
  induction s as [| c s IH]; simpl; intros H.
  - reflexivity.
  - destruct (c =? semicolon); [discriminate |].
    destruct (Spec.up_to_first semicolon s); [discriminate |].
    now rewrite IH.
Qed.

(** X5.  On a header without line terminator the regular expression
    captures what the words "the substring between [:] and the first
    [;]" describe: the text from the first [:] to the first [;] after
    it. *)
Theorem match_mime_is_between (header : js_string) :
  forallb (fun c => negb (is_line_terminator c)) header = true ->
  match_mime header = Spec.mime_between header.
Proof.
  unfold Spec.mime_between.
  induction header as [| c s IH]; simpl; intros H.
  - reflexivity.
  - apply andb_true_iff in H. destruct H as [_ Hs].
    destruct (c =? colon); [| exact (IH Hs)].
    rewrite (lazy_dots_is_up_to_first _ Hs).
    destruct (Spec.up_to_first semicolon s) eqn:E; [reflexivity |].
    apply match_mime_without_semicolon, up_to_first_none, E.
Qed.

(* ===================================================================== *)
(** ** More about the Edit Client *)
(* ===================================================================== *)

Lemma scan_parts_some (ps : list Part) (uri : js_string) :
  scan_parts ps = Some uri ->
  exists part blob,
    In part ps /\ inlineData part = Some blob /\ uri = data_uri_of_blob blob.
Proof.
  induction ps as [| p rest IH]; simpl; intros H.
  - discriminate.
  - destruct (inlineData p) as [blob |] eqn:Ep.
    + inversion H. exists p, blob. auto.
    + destruct (IH H) as (part & blob & Hin & Hpart & Huri).
      exists part, blob. auto.
Qed.

(** Parts without inline data never matter to the loop. *)
Lemma scan_parts_filter (ps : list Part) :
  scan_parts (filter Spec.carries_inline ps) = scan_parts ps.
Proof.
  induction ps as [| p rest IH]; simpl.
  - reflexivity.
  - unfold Spec.carries_inline at 1.
    destruct (inlineData p) as [blob |] eqn:Ep; simpl.
    + now rewrite Ep.
    + exact IH.
Qed.


Section EditClientMore.

Context (generateContent :
           GenerateContentParameters -> thrown + GenerateContentResponse).

(** X7.  A response that lacks any link of
    [candidates?.[0]?.content?.parts] (no [candidates], an empty
    [candidates], a first candidate without [content], a [content]
    without [parts]) or whose [parts] is empty is treated as a response
    without image: one network call, the "no image" error on the console,
    the generic rejection. *)
Theorem editImageWithPrompt_hollow_response (b : option js_string)
    (m p : js_string) (response : GenerateContentResponse) :
  generateContent (edit_request b m p) = inr response ->
  candidates response = None
  \/ candidates response = Some []
  \/ (exists first others,
        candidates response = Some (first :: others)
        /\ (content first = None
            \/ content first = Some {| parts := None |}
            \/ content first = Some {| parts := Some [] |})) ->
  editImageWithPrompt generateContent b m p
  = (Rejected (Error generic_failure_message),
     [NetworkCall (edit_request b m p);
      ConsoleError [ArgString api_error_label;
                    ArgThrown (Error no_image_message)]]).
Proof.
  intros Hcall Hhollow.
  assert (Hparts : first_candidate_parts response = []).
  { unfold first_candidate_parts.
    destruct Hhollow as [-> | [-> | (first & others & -> & Hcontent)]];
      try reflexivity.
    destruct Hcontent as [-> | [-> | ->]]; reflexivity. }
  rewrite editImageWithPrompt_run. cbv zeta.
  now rewrite Hcall, Hparts.
Qed.

End EditClientMore.

(** X8.  Only the first candidate is consulted: two responses with the
    same first candidate give the same run, whatever their other
    candidates hold. *)
Theorem editImageWithPrompt_first_candidate_only
    (provider1 provider2 :
       GenerateContentParameters -> thrown + GenerateContentResponse)
    (b : option js_string) (m p : js_string)
    (first : Candidate) (others1 others2 : list Candidate) :
  provider1 (edit_request b m p)
  = inr {| candidates := Some (first :: others1) |} ->
  provider2 (edit_request b m p)
  = inr {| candidates := Some (first :: others2) |} ->
  editImageWithPrompt provider1 b m p = editImageWithPrompt provider2 b m p.
Proof.
  intros H1 H2. rewrite !editImageWithPrompt_run. cbv zeta.
  now rewrite H1, H2.
Qed.

(** X9.  Parts without inline data have no influence: dropping them all
    from the first candidate's parts leaves the outcome unchanged. *)
Theorem editImageWithPrompt_ignores_other_parts
    (provider1 provider2 :
       GenerateContentParameters -> thrown + GenerateContentResponse)
    (b : option js_string) (m p : js_string)
    (response1 response2 : GenerateContentResponse) :
  provider1 (edit_request b m p) = inr response1 ->
  provider2 (edit_request b m p) = inr response2 ->
  first_candidate_parts response2
  = filter Spec.carries_inline (first_candidate_parts response1) ->
  outcome (editImageWithPrompt provider1 b m p)
  = outcome (editImageWithPrompt provider2 b m p).
Proof.
  intros H1 H2 Hparts. rewrite !editImageWithPrompt_run. cbv zeta.
  rewrite H1, H2, Hparts, scan_parts_filter.
  now destruct (scan_parts (first_candidate_parts response1)).
Qed.

(* ===================================================================== *)
(** ** More about the controller *)
(* ===================================================================== *)

Section ControllerMore.

Context {File : Type} (readAsDataURL : File -> read_outcome).
Context (generateContent :
           GenerateContentParameters -> thrown + GenerateContentResponse).

(** The [try] block of [handleGenerate]: the read first, the request only
    when the read gave a result. *)
Lemma generate_attempt_run (file : File) (text : js_string) :
  generate_attempt readAsDataURL generateContent file text
  = match readAsDataURL file with
    | Loaded r =>
        editImageWithPrompt generateContent
          (base64 (onload r)) (mimeType (onload r)) text
    | Failed ev => (Rejected ev, [])
    end.
Proof.
  unfold generate_attempt, fileToData.
  destruct (readAsDataURL file) as [r | ev]; [| reflexivity].
  unfold ret, bind.
  now destruct (editImageWithPrompt generateContent
                  (base64 (onload r)) (mimeType (onload r)) text).
Qed.

Lemma generate_attempt_resolved (file : File) (text uri : js_string) :
  outcome (generate_attempt readAsDataURL generateContent file text)
  = Resolved uri ->
  exists blob, uri = data_uri_of_blob blob.
Proof.
  rewrite generate_attempt_run.
  destruct (readAsDataURL file) as [r | ev]; [| discriminate].
  rewrite editImageWithPrompt_run. cbv zeta.
  destruct (generateContent _) as [err | response]; [discriminate |].
  destruct (scan_parts (first_candidate_parts response)) as [u |] eqn:Es;
    [| discriminate].
  cbn [outcome fst]. intros H. inversion H; subst u.
  destruct (scan_parts_some _ _ Es) as (part & blob & _ & _ & ->).
  now exists blob.
Qed.

Lemma generate_attempt_rejected (file : File) (text : js_string)
    (err : thrown) :
  outcome (generate_attempt readAsDataURL generateContent file text)
  = Rejected err ->
  readAsDataURL file = Failed err \/ err = Error generic_failure_message.
Proof.
  rewrite generate_attempt_run.
  destruct (readAsDataURL file) as [r | ev].
  - rewrite editImageWithPrompt_run. cbv zeta.
    destruct (generateContent _) as [e | response].
    + cbn [outcome fst]. intros H. inversion H. now right.
    + destruct (scan_parts (first_candidate_parts response));
        cbn [outcome fst]; intros H; inversion H. now right.
  - cbn [outcome fst]. intros H. inversion H. now left.
Qed.

(** The guard, as a case distinction. *)
Lemma handleGenerate_guard_cases (s : AppState File) :
  (uploadedImageFile s = None \/ Spec.whitespace_only (prompt s) = true)
  \/ (exists file, uploadedImageFile s = Some file
                   /\ truthy (trim (prompt s)) = true).
Proof.
  destruct (uploadedImageFile s) as [file |]; [| now left; left].
  destruct (Spec.whitespace_only (prompt s)) eqn:E; [now left; right |].
  right. exists file. split; [reflexivity |].
  now rewrite truthy_trim, E.
Qed.

(** X10.  A successful generation: with a file whose read gives [r], a
    prompt that is not blank and a provider answer whose first inline
    part gives [uri], [handleGenerate] ends with [uri] as generated
    image, no error and the loading flag cleared; file, preview and
    prompt are untouched.  Its only effect is one network call, whose
    request holds the second comma-separated segment of [r], the MIME
    type extracted from [r] and the prompt exactly as typed (not
    trimmed). *)
Theorem handleGenerate_success (s : AppState File) (file : File)
    (r uri : js_string) (response : GenerateContentResponse) :
  uploadedImageFile s = Some file ->
  truthy (trim (prompt s)) = true ->
  readAsDataURL file = Loaded r ->
  generateContent
    (edit_request (nth_error (split comma r) 1) (mimeType (onload r))
                  (prompt s))
  = inr response ->
  scan_parts (first_candidate_parts response) = Some uri ->
  let run := handleGenerate readAsDataURL generateContent s in
  let s' := final_state s run in
  generatedImage s' = Some uri
  /\ error s' = None
  /\ isLoading s' = false
  /\ uploadedImageFile s' = uploadedImageFile s
  /\ uploadedImagePreview s' = uploadedImagePreview s
  /\ prompt s' = prompt s
  /\ run_effects run
     = [NetworkCall
          (edit_request (nth_error (split comma r) 1) (mimeType (onload r))
                        (prompt s))].
Proof.
  intros Hfile Hprompt Hread Hcall Hscan. cbv zeta.
  rewrite (handleGenerate_dispatch _ _ _ _ Hfile Hprompt). cbv zeta.
  rewrite generate_attempt_run, Hread, editImageWithPrompt_run. cbv zeta.
  change (base64 (onload r)) with (nth_error (split comma r) 1).
  rewrite Hcall, Hscan. repeat split.
Qed.

(** X11.  When the file cannot be read at generation time, no network
    call is made: the only effect is the [console.error] of the read
    event, the error shown is the event's [message] or, the event having
    none, "An unknown error occurred.", the generated image is gone and
    the loading flag is cleared. *)
Theorem handleGenerate_read_failure (s : AppState File) (file : File)
    (ev : thrown) :
  uploadedImageFile s = Some file ->
  truthy (trim (prompt s)) = true ->
  readAsDataURL file = Failed ev ->
  let run := handleGenerate readAsDataURL generateContent s in
  let s' := final_state s run in
  run_effects run = [ConsoleError [ArgThrown ev]]
  /\ error s' = Some (or_else (message_of ev) unknown_error_message)
  /\ (message_of ev = None -> error s' = Some unknown_error_message)
  /\ generatedImage s' = None
  /\ isLoading s' = false.
Proof.
  intros Hfile Hprompt Hread. cbv zeta.
  rewrite (handleGenerate_dispatch _ _ _ _ Hfile Hprompt). cbv zeta.
  rewrite generate_attempt_run, Hread. cbn.
  repeat split. intros ->. reflexivity.
Qed.

(** X12.  When the read succeeds but the provider fails or answers
    without inline part, [handleGenerate] shows exactly the generic
    message, no generated image, and clears the loading flag; there was
    one network call and two [console.error] calls, the service's (with
    the cause) and the handler's (with the generic error). *)
Theorem handleGenerate_generation_failure (s : AppState File) (file : File)
    (r : js_string) :
  uploadedImageFile s = Some file ->
  truthy (trim (prompt s)) = true ->
  readAsDataURL file = Loaded r ->
  let request :=
    edit_request (nth_error (split comma r) 1) (mimeType (onload r))
                 (prompt s) in
  (exists err, generateContent request = inl err)
  \/ (exists response,
        generateContent request = inr response
        /\ existsb Spec.carries_inline (first_candidate_parts response)
           = false) ->
  let run := handleGenerate readAsDataURL generateContent s in
  let s' := final_state s run in
  error s' = Some generic_failure_message
  /\ generatedImage s' = None
  /\ isLoading s' = false
  /\ exists cause,
       run_effects run
       = [NetworkCall request;
          ConsoleError [ArgString api_error_label; ArgThrown cause];
          ConsoleError [ArgThrown (Error generic_failure_message)]].
Proof.
  intros Hfile Hprompt Hread request Hfail. cbv zeta.
  rewrite (handleGenerate_dispatch _ _ _ _ Hfile Hprompt). cbv zeta.
  rewrite generate_attempt_run, Hread, editImageWithPrompt_run. cbv zeta.
  change (base64 (onload r)) with (nth_error (split comma r) 1).
  fold request.
  destruct Hfail as [(err & Hcall) | (response & Hcall & Hnone)];
    rewrite Hcall.
  - repeat split. now exists err.
  - rewrite (scan_parts_none _ Hnone). repeat split.
    now exists (Error no_image_message).
Qed.

(** X13.  [handleGenerate] never touches the stored file, the preview or
    the prompt: they are the same in every state it renders, on every
    path. *)
Theorem handleGenerate_frame (s : AppState File) :
  Forall (fun st =>
            uploadedImageFile st = uploadedImageFile s
            /\ uploadedImagePreview st = uploadedImagePreview s
            /\ prompt st = prompt s)
         (renders (handleGenerate readAsDataURL generateContent s)).
Proof.
  destruct (handleGenerate_guard_cases s) as [Hguard | (file & Hfile & Hp)].
  - rewrite (handleGenerate_guard _ _ _ Hguard). simpl.
    repeat constructor.
  - rewrite (handleGenerate_dispatch _ _ _ _ Hfile Hp). cbv zeta.
    destruct (generate_attempt readAsDataURL generateContent file (prompt s))
      as [[uri | err] fx]; simpl; repeat constructor.
Qed.

(** X14.  When the read of a newly selected file fails, only the stored
    file and the error change: the preview and the generated image stay
    those of the previous file, so the file held and the preview shown
    may differ; the read event goes to the console. *)
Theorem handleFileChange_read_failure (file : File) (ev : thrown)
    (s : AppState File) :
  readAsDataURL file = Failed ev ->
  let run := handleFileChange readAsDataURL (Some file) s in
  let s' := final_state s run in
  uploadedImageFile s' = Some file
  /\ error s' = Some file_read_message
  /\ uploadedImagePreview s' = uploadedImagePreview s
  /\ generatedImage s' = generatedImage s
  /\ prompt s' = prompt s
  /\ isLoading s' = isLoading s
  /\ run_effects run = [ConsoleError [ArgThrown ev]].
Proof.
  intros Hread. cbv zeta. unfold handleFileChange, fileToData.
  rewrite Hread. repeat split.
Qed.

(** X15.  A handler run reaches the network only from [handleGenerate],
    only when the state holds a readable file and a prompt that is not
    blank, and then exactly once; every other run makes no network call
    at all. *)
Theorem run_handler_network (call : handler_call File) (s : AppState File) :
  let calls :=
    network_calls
      (run_effects (run_handler readAsDataURL generateContent call s)) in
  calls = []
  \/ (call = Generate
      /\ exists file r,
           uploadedImageFile s = Some file
           /\ readAsDataURL file = Loaded r
           /\ truthy (trim (prompt s)) = true
           /\ calls = [edit_request (nth_error (split comma r) 1)
                                    (mimeType (onload r)) (prompt s)]).
Proof.
  cbv zeta. destruct call as [selected | value |]; cbn [run_handler].
  - left. unfold handleFileChange, fileToData.
    destruct selected as [file |]; [| reflexivity].
    now destruct (readAsDataURL file).
  - now left.
  - destruct (handleGenerate_guard_cases s) as [Hguard | (file & Hfile & Hp)].
    + left. now rewrite (handleGenerate_guard _ _ _ Hguard).
    + rewrite (handleGenerate_dispatch _ _ _ _ Hfile Hp). cbv zeta.
      rewrite generate_attempt_run.
      destruct (readAsDataURL file) as [r | ev] eqn:Hread; [| now left].
      right. split; [reflexivity |]. exists file, r.
      repeat (split; [assumption |]).
      rewrite editImageWithPrompt_run. cbv zeta.
      change (base64 (onload r)) with (nth_error (split comma r) 1).
      destruct (generateContent _) as [err | response]; [reflexivity |].
      now destruct (scan_parts (first_candidate_parts response)).
Qed.

End ControllerMore.

(* ===================================================================== *)
(** ** The view *)
(* ===================================================================== *)

Lemma or_else_truthy (v : option js_string) (d : js_string) :
  truthy d = true -> truthy (or_else v d) = true.
Proof.
  intros Hd. unfold or_else.
  destruct v as [s |]; [| exact Hd].
  now destruct (truthy s) eqn:E.
Qed.

Lemma data_uri_truthy (blob : Blob) : truthy (data_uri_of_blob blob) = true.
Proof. reflexivity. Qed.

(** X16.  The result panel shows exactly one of three things: the spinner
    (while loading), the generated image (a non-empty one, when not
    loading), or the placeholder text (no generated image, not
    loading). *)
Theorem render_result_panel {File : Type} (s : AppState File) :
  let v := render s in
  (spinner v = true /\ generated_img v = None
   /\ result_placeholder v = false)
  \/ (spinner v = false /\ result_placeholder v = false
      /\ exists u, generated_img v = Some u /\ generatedImage s = Some u
                   /\ truthy u = true)
  \/ (spinner v = false /\ generated_img v = None
      /\ result_placeholder v = true).
Proof.
  cbv zeta. unfold render. cbn [spinner generated_img result_placeholder].
  destruct (isLoading s).
  - left. rewrite !andb_false_r. now repeat split.
  - right. rewrite !andb_true_r.
    destruct (generatedImage s) as [[| c u] |]; cbn.
    + right. now repeat split.
    + left. repeat split. now exists (c :: u).
    + right. now repeat split.
Qed.

(** X17.  When the controls are shown, the generate button is disabled
    exactly when a request is loading or the prompt is empty or holds
    only white space and line terminators. *)
Theorem render_button_disabled {File : Type} (s : AppState File)
    (c : Controls) :
  controls (render s) = Some c ->
  (button_disabled c = true
   <-> isLoading s = true \/ Spec.whitespace_only (prompt s) = true).
Proof.
  unfold render. cbn [controls].
  destruct (truthy_cell (uploadedImagePreview s)); [| discriminate].
  intros H. inversion H; subst c. cbn [button_disabled].
  rewrite truthy_trim, negb_involutive. apply orb_true_iff.
Qed.

(** X18.  When the controls are shown, the download link is there exactly
    when the generated image is displayed and points at that very image;
    with it the button reads "Regenerate" and there is no spinner. *)
Theorem render_download_link {File : Type} (s : AppState File)
    (c : Controls) :
  controls (render s) = Some c ->
  download_href c = generated_img (render s)
  /\ (forall u, download_href c = Some u ->
        generatedImage s = Some u
        /\ button_label c = RegenerateText
        /\ spinner (render s) = false).
Proof.
  unfold render. cbn [controls generated_img spinner].
  destruct (truthy_cell (uploadedImagePreview s)); [| discriminate].
  intros H. inversion H; subst c. cbn [download_href button_label].
  split; [reflexivity |].
  intros u Hu. unfold element_if in Hu.
  destruct (truthy_cell (generatedImage s)) eqn:Et; [| discriminate].
  destruct (isLoading s); [discriminate |]. now repeat split.
Qed.

(* ===================================================================== *)
(** ** Sequences of handler runs *)
(* ===================================================================== *)

Section EventsFacts.

Context {File : Type} (readAsDataURL : File -> read_outcome).
Context (generateContent :
           GenerateContentParameters -> thrown + GenerateContentResponse).

Lemma final_state_handleGenerate (s : AppState File) :
  final_state s (handleGenerate readAsDataURL generateContent s)
  = match uploadedImageFile s with
    | None => setError (Some validation_message) s
    | Some file =>
        if negb (truthy (trim (prompt s)))
        then setError (Some validation_message) s
        else
          let loading :=
            setGeneratedImage None (setError None (setIsLoading true s)) in
          match outcome (generate_attempt readAsDataURL generateContent
                           file (prompt s)) with
          | Resolved uri =>
              setIsLoading false (setGeneratedImage (Some uri) loading)
          | Rejected err =>
              setIsLoading false
                (setError (Some (or_else (message_of err)
                                         unknown_error_message)) loading)
          end
    end.
Proof.
  unfold handleGenerate.
  destruct (uploadedImageFile s) as [file |]; [| reflexivity].
  destruct (negb (truthy (trim (prompt s)))); [reflexivity |].
  cbv zeta.
  now destruct (generate_attempt readAsDataURL generateContent file (prompt s))
    as [[uri | err] fx].
Qed.

Lemma final_state_handleFileChange (selected : option File)
    (s : AppState File) :
  final_state s (handleFileChange readAsDataURL selected s)
  = match selected with
    | None => s
    | Some file =>
        match readAsDataURL file with
        | Loaded r =>
            setError None
              (setGeneratedImage None
                 (setUploadedImagePreview (Some r)
                    (setUploadedImageFile (Some file) s)))
        | Failed _ =>
            setError (Some file_read_message)
              (setUploadedImageFile (Some file) s)
        end
    end.
Proof.
  unfold handleFileChange, fileToData.
  destruct selected as [file |]; [| reflexivity].
  now destruct (readAsDataURL file).
Qed.

Lemma between_runs_step (call : handler_call File) (s : AppState File) :
  between_runs s ->
  between_runs
    (final_state s (run_handler readAsDataURL generateContent call s)).
Proof.
  intros (Hload & Hfile & Herr & Himg).
  destruct call as [selected | value |]; cbn [run_handler].
  - rewrite final_state_handleFileChange.
    destruct selected as [file |]; [| now repeat split].
    destruct (readAsDataURL file) as [r | ev]; unfold between_runs; cbn.
    + repeat split; try assumption; try discriminate.
    + repeat split; try assumption; try discriminate.
      intros m H. now inversion H.
  - unfold final_state, between_runs. cbn. now repeat split.
  - rewrite final_state_handleGenerate.
    assert (Hval : between_runs (setError (Some validation_message) s)).
    { unfold between_runs. cbn. repeat split; try assumption.
      intros m H. now inversion H. }
    destruct (uploadedImageFile s) as [file |] eqn:Ef; [| exact Hval].
    destruct (negb (truthy (trim (prompt s)))); [exact Hval |].
    cbv zeta.
    destruct (outcome (generate_attempt readAsDataURL generateContent
                         file (prompt s))) as [uri | err] eqn:Eo;
      unfold between_runs; cbn; rewrite ?Ef.
    + repeat split; try discriminate.
      intros u H. inversion H; subst u.
      exact (generate_attempt_resolved _ _ _ _ _ Eo).
    + repeat split; try discriminate.
      intros m H. inversion H. now apply or_else_truthy.
Qed.

Lemma between_runs_preserved (calls : list (handler_call File))
    (s : AppState File) :
  between_runs s ->
  between_runs (after_calls readAsDataURL generateContent calls s).
Proof.
  revert s. induction calls as [| call calls IH]; intros s Hs.
  - exact Hs.
  - cbn [after_calls fold_left]. apply IH, between_runs_step, Hs.
Qed.

Lemma between_runs_initial : between_runs (@initial_state File).
Proof.
  unfold between_runs, initial_state. cbn.
  repeat split; try discriminate. intros H. now contradiction H.
Qed.

Lemma first_candidate_parts_in (response : GenerateContentResponse)
    (part : Part) :
  In part (first_candidate_parts response) ->
  exists first others c ps,
    candidates response = Some (first :: others)
    /\ content first = Some c
    /\ parts c = Some ps
    /\ In part ps.
Proof.
  unfold first_candidate_parts.
  destruct (candidates response) as [[| first others] |];
    try contradiction.
  destruct (content first) as [c |] eqn:Ec; try contradiction.
  destruct (parts c) as [ps |] eqn:Ep; try contradiction.
  intros Hin. now exists first, others, c, ps.
Qed.

(** What the attempt resolves with comes out of the provider's answer. *)
Lemma generate_attempt_provider_image (file : File) (typed uri : js_string) :
  outcome (generate_attempt readAsDataURL generateContent file typed)
  = Resolved uri ->
  provider_image generateContent uri.
Proof.
  rewrite generate_attempt_run.
  destruct (readAsDataURL file) as [r | ev]; [| discriminate].
  rewrite editImageWithPrompt_run. cbv zeta.
  destruct (generateContent _) as [err | response] eqn:Ecall;
    [discriminate |].
  destruct (scan_parts (first_candidate_parts response)) as [u |] eqn:Es;
    [| discriminate].
  cbn [outcome fst]. intros H. inversion H; subst u.
  destruct (scan_parts_some _ _ Es) as (part & blob & Hin & Hpart & ->).
  destruct (first_candidate_parts_in _ _ Hin)
    as (first & others & c & ps & Hcands & Hcontent & Hparts & Hin').
  exists (base64 (onload r)), (mimeType (onload r)), typed, response,
         first, others, c, ps, part, blob.
  repeat (split; [assumption |]).
  destruct blob as [[data |] [mime |]]; reflexivity.
Qed.

Lemma provider_image_step (call : handler_call File) (s : AppState File) :
  (forall u, generatedImage s = Some u -> provider_image generateContent u) ->
  forall u,
    generatedImage
      (final_state s (run_handler readAsDataURL generateContent call s))
    = Some u ->
    provider_image generateContent u.
Proof.
  intros Hs u. destruct call as [selected | value |]; cbn [run_handler].
  - rewrite final_state_handleFileChange.
    destruct selected as [file |]; [| apply Hs].
    destruct (readAsDataURL file) as [r | ev]; cbn.
    + discriminate.
    + apply Hs.
  - unfold final_state. cbn. apply Hs.
  - rewrite final_state_handleGenerate.
    destruct (uploadedImageFile s) as [file |]; [| cbn; apply Hs].
    destruct (negb (truthy (trim (prompt s)))); [cbn; apply Hs |].
    cbv zeta.
    destruct (outcome (generate_attempt readAsDataURL generateContent
                         file (prompt s))) as [uri | err] eqn:Eo; cbn.
    + intros H. inversion H; subst u.
      exact (generate_attempt_provider_image _ _ _ Eo).
    + discriminate.
Qed.

Lemma provider_image_preserved (calls : list (handler_call File))
    (s : AppState File) :
  (forall u, generatedImage s = Some u -> provider_image generateContent u) ->
  forall u,
    generatedImage (after_calls readAsDataURL generateContent calls s)
    = Some u ->
    provider_image generateContent u.
Proof.
  revert s. induction calls as [| call calls IH]; intros s Hs.
  - exact Hs.
  - cbn [after_calls fold_left]. apply IH, provider_image_step, Hs.
Qed.

(** X19.  After any sequence of handler runs from the initial state, each
    run settled before the next, the loading flag is clear; a preview is
    only there with a stored file; an error, when there is one, is not
    the empty string; and a generated image, when there is one, is
    [data:<mimeType>;base64,<data>] for an inline part standing in the
    first candidate of an answer the provider gives to an edit
    request. *)
Theorem after_calls_between_runs (calls : list (handler_call File)) :
  let s := after_calls readAsDataURL generateContent calls initial_state in
  isLoading s = false
  /\ (uploadedImagePreview s <> None -> uploadedImageFile s <> None)
  /\ (forall m, error s = Some m -> m <> [])
  /\ (forall u, generatedImage s = Some u ->
        provider_image generateContent u).
Proof.
  cbv zeta.
  destruct (between_runs_preserved calls _ between_runs_initial)
    as (Hload & Hfile & Herr & _).
  split; [exact Hload |]. split; [exact Hfile |]. split.
  - intros m Hm ->. specialize (Herr [] Hm). discriminate Herr.
  - apply provider_image_preserved. intros u H. discriminate H.
Qed.

(** X20.  After any such sequence the view hides nothing of the state:
    the error alert shows the error held, the result panel shows the
    generated image held, there is no spinner, and the placeholder text
    stands exactly when there is no generated image. *)
Theorem after_calls_view_shows_state (calls : list (handler_call File)) :
  let s := after_calls readAsDataURL generateContent calls initial_state in
  error_alert (render s) = error s
  /\ generated_img (render s) = generatedImage s
  /\ spinner (render s) = false
  /\ (result_placeholder (render s) = true <-> generatedImage s = None).
Proof.
  cbv zeta.
  destruct (between_runs_preserved calls _ between_runs_initial)
    as (Hload & _ & Herr & Himg).
  unfold render.
  cbn [error_alert generated_img spinner result_placeholder].
  rewrite Hload. cbn [negb]. rewrite !andb_true_r.
  repeat split.
  - destruct (error _) as [m |] eqn:E; [| reflexivity].
    cbn. now rewrite (Herr m eq_refl).
  - destruct (generatedImage _) as [u |] eqn:E; [| reflexivity].
    destruct (Himg u eq_refl) as (blob & ->). reflexivity.
  - destruct (generatedImage _) as [u |] eqn:E; [| reflexivity].
    destruct (Himg u eq_refl) as (blob & ->). discriminate.
  - intros ->. reflexivity.
Qed.

(** X21.  After any such sequence, a click on the generate button, when
    the controls are shown and the button is enabled, always passes the
    guard of [handleGenerate]: a file is stored, the prompt is not blank,
    and the run starts by rendering the loading state with neither error
    nor generated image (the validation message cannot come up). *)
Theorem enabled_button_dispatches (calls : list (handler_call File))
    (c : Controls) :
  let s := after_calls readAsDataURL generateContent calls initial_state in
  controls (render s) = Some c ->
  button_disabled c = false ->
  exists file loading rest,
    uploadedImageFile s = Some file
    /\ truthy (trim (prompt s)) = true
    /\ renders (handleGenerate readAsDataURL generateContent s)
       = loading :: rest
    /\ isLoading loading = true
    /\ error loading = None
    /\ generatedImage loading = None.
Proof.
  cbv zeta.
  destruct (between_runs_preserved calls _ between_runs_initial)
    as (_ & Hfile & _ & _).
  set (s := after_calls readAsDataURL generateContent calls initial_state)
    in *.
  unfold render. cbn [controls].
  destruct (uploadedImagePreview s) as [pv |] eqn:Epv; [| discriminate].
  destruct (truthy_cell (Some pv)); [| discriminate].
  intros H Hdis. inversion H; subst c. cbn [button_disabled] in Hdis.
  apply orb_false_iff in Hdis. destruct Hdis as [_ Hprompt].
  apply negb_false_iff in Hprompt.
  destruct (uploadedImageFile s) as [file |] eqn:Ef;
    [| now contradiction Hfile].
  exists file.
  rewrite (handleGenerate_dispatch _ _ _ _ Ef Hprompt). cbv zeta.
  destruct (generate_attempt readAsDataURL generateContent file (prompt s))
    as [[uri | err] fx]; cbn [renders];
    eexists; eexists; repeat split; first [exact Hprompt | reflexivity].
Qed.

(** X22.  When the reader's failure events carry no [message] (they are
    progress events), the error held after any such sequence is none or
    one of the four messages the component words itself: the provider's
    text and "No image data was found in the API response." never get
    there. *)
Theorem after_calls_error_messages (calls : list (handler_call File)) :
  (forall file ev, readAsDataURL file = Failed ev -> message_of ev = None) ->
  let s := after_calls readAsDataURL generateContent calls initial_state in
  error s = None \/ exists m, error s = Some m /\ In m own_messages.
Proof.
  intros Hreader. cbv zeta.
  assert (Hstep : forall call (s : AppState File),
             (error s = None \/ exists m, error s = Some m /\ In m own_messages) ->
             let s' := final_state s (run_handler readAsDataURL
                                        generateContent call s) in
             error s' = None \/ exists m, error s' = Some m /\ In m own_messages).
  { intros call s Hs. cbv zeta.
    destruct call as [selected | value |]; cbn [run_handler].
    - rewrite final_state_handleFileChange.
      destruct selected as [file |]; [| exact Hs].
      destruct (readAsDataURL file) as [r | ev]; cbn.
      + now left.
      + right. exists file_read_message. split; [reflexivity |].
        right. now left.
    - exact Hs.
    - rewrite final_state_handleGenerate.
      assert (Hval : error (setError (Some validation_message) s) = None
                     \/ exists m, error (setError (Some validation_message) s)
                                  = Some m /\ In m own_messages).
      { right. exists validation_message. split; [reflexivity | now left]. }
      destruct (uploadedImageFile s) as [file |]; [| exact Hval].
      destruct (negb (truthy (trim (prompt s)))); [exact Hval |].
      cbv zeta.
      destruct (outcome (generate_attempt readAsDataURL generateContent
                           file (prompt s))) as [uri | err] eqn:Eo; cbn.
      + now left.
      + right.
        destruct (generate_attempt_rejected _ _ _ _ _ Eo) as [Hread | ->].
        * rewrite (Hreader _ _ Hread). exists unknown_error_message.
          split; [reflexivity |]. right. right. right. now left.
        * exists generic_failure_message.
          split; [reflexivity |]. right. right. now left. }
  assert (Hall : forall cs (s : AppState File),
             (error s = None \/ exists m, error s = Some m /\ In m own_messages) ->
             error (after_calls readAsDataURL generateContent cs s) = None
             \/ exists m,
                  error (after_calls readAsDataURL generateContent cs s)
                  = Some m /\ In m own_messages).
  { induction cs as [| call cs IH]; intros s Hs.
    - exact Hs.
    - cbn [after_calls fold_left]. apply IH, Hstep, Hs. }
  apply Hall. now left.
Qed.

End EventsFacts.

(* ===================================================================== *)
(** ** The further statements at sample inputs *)
(* ===================================================================== *)

Lemma fileToData_mime_shape_png :
  exists d : FileData,
    outcome (fileToData Fixture.reader Fixture.png_file) = Resolved d
    /\ Spec.well_formed_mime (mimeType d) = true
    /\ (mimeType d = default_mime
        \/ exists pre post,
             hd [] (split comma Fixture.png_file)
             = pre ++ colon :: mimeType d ++ semicolon :: post).
Proof.
  apply (fileToData_mime_shape Fixture.reader Fixture.png_file
           Fixture.png_file).
  reflexivity.
Defined.

Lemma fileToData_reencode_comma_typed :
  outcome (fileToData Fixture.reader Sample.reencoded_file)
  = Resolved
      {| base64 := Some (lit "b;base64");
         mimeType := mimeType (onload Fixture.comma_typed_file);
         dataUrl :=
           Spec.data_url (mimeType (onload Fixture.comma_typed_file))
                         (lit "b;base64") |}.
Proof.
  apply (fileToData_reencode Fixture.reader Fixture.comma_typed_file
           Sample.reencoded_file (onload Fixture.comma_typed_file)
           (lit "b;base64")).
  - reflexivity.
  - reflexivity.
  - reflexivity.
Defined.

Lemma fileToData_drops_parameters_charset :
  exists d : FileData,
    outcome (fileToData Fixture.reader Sample.parameterised_file)
    = Resolved d
    /\ mimeType d = lit "text/plain"
    /\ base64 d = Some (lit "QQ==")
    /\ dataUrl d
       = lit "data:" ++ lit "text/plain"
           ++ semicolon :: lit "charset=utf-8" ++ lit ";base64," ++ lit "QQ=="
    /\ dataUrl d <> Spec.data_url (mimeType d) (lit "QQ==").
Proof.
  apply (fileToData_drops_parameters Fixture.reader
           Sample.parameterised_file (lit "text/plain")
           (lit "charset=utf-8") (lit "QQ==")).
  - reflexivity.
  - reflexivity.
  - reflexivity.
  - reflexivity.
Defined.

Lemma match_mime_is_between_png :
  match_mime (lit "data:image/png;base64")
  = Spec.mime_between (lit "data:image/png;base64").
Proof.
  apply (match_mime_is_between (lit "data:image/png;base64")).
  reflexivity.
Defined.

Lemma editImageWithPrompt_hollow_response_no_candidates :
  editImageWithPrompt (Sample.answering_candidates [])
    (Some (lit "AAAA")) (lit "image/png") (lit "make it blue")
  = (Rejected (Error generic_failure_message),
     [NetworkCall (edit_request (Some (lit "AAAA")) (lit "image/png")
                                (lit "make it blue"));
      ConsoleError [ArgString api_error_label;
                    ArgThrown (Error no_image_message)]]).
Proof.
  apply (editImageWithPrompt_hollow_response (Sample.answering_candidates [])
           (Some (lit "AAAA")) (lit "image/png") (lit "make it blue")
           {| candidates := Some [] |}).
  - reflexivity.
  - right. left. reflexivity.
Defined.

Lemma editImageWithPrompt_first_candidate_only_second_has_image :
  editImageWithPrompt
    (Sample.answering_candidates [Sample.text_only_candidate])
    (Some (lit "AAAA")) (lit "image/png") (lit "make it blue")
  = editImageWithPrompt
      (Sample.answering_candidates
         [Sample.text_only_candidate; Sample.webp_candidate])
      (Some (lit "AAAA")) (lit "image/png") (lit "make it blue").
Proof.
  apply (editImageWithPrompt_first_candidate_only
           (Sample.answering_candidates [Sample.text_only_candidate])
           (Sample.answering_candidates
              [Sample.text_only_candidate; Sample.webp_candidate])
           (Some (lit "AAAA")) (lit "image/png") (lit "make it blue")
           Sample.text_only_candidate [] [Sample.webp_candidate]).
  - reflexivity.
  - reflexivity.
Defined.

Lemma editImageWithPrompt_ignores_other_parts_text :
  outcome (editImageWithPrompt
             (Fixture.answering [Fixture.text_part; Fixture.webp_part])
             (Some (lit "AAAA")) (lit "image/png") (lit "make it blue"))
  = outcome (editImageWithPrompt (Fixture.answering [Fixture.webp_part])
               (Some (lit "AAAA")) (lit "image/png") (lit "make it blue")).
Proof.
  apply (editImageWithPrompt_ignores_other_parts
           (Fixture.answering [Fixture.text_part; Fixture.webp_part])
           (Fixture.answering [Fixture.webp_part])
           (Some (lit "AAAA")) (lit "image/png") (lit "make it blue")
           (Fixture.response_of [Fixture.text_part; Fixture.webp_part])
           (Fixture.response_of [Fixture.webp_part])).
  - reflexivity.
  - reflexivity.
  - reflexivity.
Defined.

Lemma handleGenerate_success_ready :
  let provider := Fixture.answering [Fixture.text_part; Fixture.webp_part] in
  let run := handleGenerate Fixture.reader provider Sample.ready in
  let s' := final_state Sample.ready run in
  generatedImage s' = Some (lit "data:image/webp;base64,Y")
  /\ error s' = None
  /\ isLoading s' = false
  /\ uploadedImageFile s' = uploadedImageFile Sample.ready
  /\ uploadedImagePreview s' = uploadedImagePreview Sample.ready
  /\ prompt s' = prompt Sample.ready
  /\ run_effects run
     = [NetworkCall
          (edit_request (nth_error (split comma Fixture.png_file) 1)
                        (mimeType (onload Fixture.png_file))
                        (prompt Sample.ready))].
Proof.
  apply (handleGenerate_success Fixture.reader
           (Fixture.answering [Fixture.text_part; Fixture.webp_part])
           Sample.ready Fixture.png_file Fixture.png_file
           (lit "data:image/webp;base64,Y")
           (Fixture.response_of [Fixture.text_part; Fixture.webp_part])).
  - reflexivity.
  - reflexivity.
  - reflexivity.
  - reflexivity.
  - reflexivity.
Defined.

Lemma handleGenerate_read_failure_unreadable :
  let provider := Fixture.answering [Fixture.webp_part] in
  let ev := ReadFailure (lit "NotReadableError") in
  let run := handleGenerate Fixture.reader provider Sample.ready_unreadable in
  let s' := final_state Sample.ready_unreadable run in
  run_effects run = [ConsoleError [ArgThrown ev]]
  /\ error s' = Some (or_else (message_of ev) unknown_error_message)
  /\ (message_of ev = None -> error s' = Some unknown_error_message)
  /\ generatedImage s' = None
  /\ isLoading s' = false.
Proof.
  apply (handleGenerate_read_failure Fixture.reader
           (Fixture.answering [Fixture.webp_part]) Sample.ready_unreadable
           Fixture.unreadable_file (ReadFailure (lit "NotReadableError"))).
  - reflexivity.
  - reflexivity.
  - reflexivity.
Defined.

Lemma handleGenerate_generation_failure_quota :
  let provider := Fixture.failing (lit "429 quota exceeded") in
  let request :=
    edit_request (nth_error (split comma Fixture.png_file) 1)
                 (mimeType (onload Fixture.png_file)) (prompt Sample.ready) in
  let run := handleGenerate Fixture.reader provider Sample.ready in
  let s' := final_state Sample.ready run in
  error s' = Some generic_failure_message
  /\ generatedImage s' = None
  /\ isLoading s' = false
  /\ exists cause,
       run_effects run
       = [NetworkCall request;
          ConsoleError [ArgString api_error_label; ArgThrown cause];
          ConsoleError [ArgThrown (Error generic_failure_message)]].
Proof.
  apply (handleGenerate_generation_failure Fixture.reader
           (Fixture.failing (lit "429 quota exceeded")) Sample.ready
           Fixture.png_file Fixture.png_file).
  - reflexivity.
  - reflexivity.
  - reflexivity.
  - left. exists (ProviderError (lit "429 quota exceeded")). reflexivity.
Defined.

Lemma handleFileChange_read_failure_unreadable :
  let s := Fixture.showing_result in
  let run := handleFileChange Fixture.reader (Some Fixture.unreadable_file) s in
  let s' := final_state s run in
  uploadedImageFile s' = Some Fixture.unreadable_file
  /\ error s' = Some file_read_message
  /\ uploadedImagePreview s' = uploadedImagePreview s
  /\ generatedImage s' = generatedImage s
  /\ prompt s' = prompt s
  /\ isLoading s' = isLoading s
  /\ run_effects run
     = [ConsoleError [ArgThrown (ReadFailure (lit "NotReadableError"))]].
Proof.
  apply (handleFileChange_read_failure Fixture.reader Fixture.unreadable_file
           (ReadFailure (lit "NotReadableError")) Fixture.showing_result).
  reflexivity.
Defined.

Lemma render_button_disabled_result :
  button_disabled Sample.controls_with_result = true
  <-> isLoading Fixture.showing_result = true
      \/ Spec.whitespace_only (prompt Fixture.showing_result) = true.
Proof.
  apply (render_button_disabled Fixture.showing_result
           Sample.controls_with_result).
  reflexivity.
Defined.

Lemma render_download_link_result :
  download_href Sample.controls_with_result
  = generated_img (render Fixture.showing_result)
  /\ (forall u, download_href Sample.controls_with_result = Some u ->
        generatedImage Fixture.showing_result = Some u
        /\ button_label Sample.controls_with_result = RegenerateText
        /\ spinner (render Fixture.showing_result) = false).
Proof.
  apply (render_download_link Fixture.showing_result
           Sample.controls_with_result).
  reflexivity.
Defined.

Lemma enabled_button_dispatches_after_upload :
  let provider := Fixture.answering [Fixture.webp_part] in
  let s := after_calls Fixture.reader provider Sample.upload_then_type
             initial_state in
  exists file loading rest,
    uploadedImageFile s = Some file
    /\ truthy (trim (prompt s)) = true
    /\ renders (handleGenerate Fixture.reader provider s) = loading :: rest
    /\ isLoading loading = true
    /\ error loading = None
    /\ generatedImage loading = None.
Proof.
  apply (enabled_button_dispatches Fixture.reader
           (Fixture.answering [Fixture.webp_part]) Sample.upload_then_type
           Sample.controls_ready).
  - reflexivity.
  - reflexivity.
Defined.

Lemma after_calls_error_messages_unreadable :
  let s := after_calls Fixture.reader (Fixture.failing (lit "401"))
             [FileChange (Some Fixture.unreadable_file); Generate]
             initial_state in
  error s = None \/ exists m, error s = Some m /\ In m own_messages.
Proof.
  apply (after_calls_error_messages Fixture.reader
           (Fixture.failing (lit "401"))
           [FileChange (Some Fixture.unreadable_file); Generate]).
  intros file ev. unfold Fixture.reader.
  destruct file; intros H; inversion H. reflexivity.
Defined.

(* ===================================================================== *)
(** ** From the file to the request *)
(* ===================================================================== *)

Section Pipeline.

Context {File : Type} (readAsDataURL : File -> read_outcome).
Context (generateContent :
           GenerateContentParameters -> thrown + GenerateContentResponse).

Lemma editImageWithPrompt_calls (b : option js_string) (m p : js_string) :
  network_calls (effects (editImageWithPrompt generateContent b m p))
  = [edit_request b m p].
Proof.
  rewrite editImageWithPrompt_run. cbv zeta.
  destruct (generateContent (edit_request b m p)) as [err | response];
    [reflexivity |].
  now destruct (scan_parts (first_candidate_parts response)).
Qed.

(** X23.  For a file read as [data:<m>;base64,<b>] (well formed), the
    attempt of [handleGenerate] sends exactly one request, and that
    request carries [b] as data, [m] as MIME type and the prompt as
    text: what reaches the provider is the file's payload under the
    file's own type. *)
Theorem generate_attempt_request (file : File) (m b typed : js_string) :
  readAsDataURL file = Loaded (Spec.data_url m b) ->
  Spec.well_formed_mime m = true ->
  Spec.well_formed_payload b = true ->
  network_calls
    (effects (generate_attempt readAsDataURL generateContent file typed))
  = [edit_request (Some b) m typed]
  /\ contents_parts (edit_request (Some b) m typed)
     = [ {| inlineData := Some {| blob_data := Some b;
                                  blob_mimeType := Some m |};
            text := None |};
         {| inlineData := None; text := Some typed |} ].
Proof.
  intros Hread Hm Hb. split; [| reflexivity].
  rewrite generate_attempt_run, Hread, (onload_data_url _ _ Hm Hb).
  cbn [base64 mimeType]. apply editImageWithPrompt_calls.
Qed.


End Pipeline.

Lemma generate_attempt_request_png :
  network_calls
    (effects (generate_attempt Fixture.reader
                (Fixture.answering [Fixture.webp_part])
                Fixture.png_file (lit "make it blue")))
  = [edit_request (Some (lit "iVBORw0KGgo=")) (lit "image/png")
                  (lit "make it blue")]
  /\ contents_parts (edit_request (Some (lit "iVBORw0KGgo="))
                                  (lit "image/png") (lit "make it blue"))
     = [ {| inlineData := Some {| blob_data := Some (lit "iVBORw0KGgo=");
                                  blob_mimeType := Some (lit "image/png") |};
            text := None |};
         {| inlineData := None; text := Some (lit "make it blue") |} ].
Proof.
  apply (generate_attempt_request Fixture.reader
           (Fixture.answering [Fixture.webp_part]) Fixture.png_file
           (lit "image/png") (lit "iVBORw0KGgo=") (lit "make it blue")).
  - reflexivity.
  - reflexivity.
  - reflexivity.
Defined.

